(** * xopera-tosca-parser: a shallow embedding of the policy resolver,
      the capability/attribute definitions and the [parse] command.

    Source files embedded here:
    - [parser/tosca/v_1_3/definitions/policy_definition.py]
    - [parser/tosca/v_1_3/capability_definition.py]
    - [parser/tosca/v_1_3/attribute_definition.py]
    - [commands/parse.py]

    Python dictionaries keep insertion order and several of the algorithms
    below depend on it, so a [dict] is an association list in insertion
    order.  Exceptions are an explicit [result] type. *)

From Stdlib Require Import List String Ascii Bool Arith ZArith Lia.
Import ListNotations.
Open Scope string_scope.
Set Warnings "-register-all".

(* ================================================================== *)
(** * Part I. The model *)
(* ================================================================== *)

(** ** Python values, exceptions and control flow *)

(** Source location of a YAML node ([file], [line], [column]). *)
Record Location : Type := mkLoc
  { loc_file : string; loc_line : nat; loc_column : nat }.

(** The exceptions the embedded code can raise.  [ParseError] is what
    [abort(msg, loc)] raises: it is the only one that carries a location
    ([commands/parse.py] prints [e.loc] for it and for no other error). *)
Inductive exn : Type :=
| ParseError (msg : string) (loc : Location)
| OperaToscaParserError (msg : string)
| RuntimeError (msg : string)
| IndexError
| AttributeError
| ValueError.

Definition carries_location (e : exn) : bool :=
  match e with
  | ParseError _ _ => true
  | _ => false
  end.

Definition message (e : exn) : string :=
  match e with
  | ParseError m _ | OperaToscaParserError m | RuntimeError m => m
  | IndexError | AttributeError | ValueError => ""
  end.

Inductive result (A : Type) : Type :=
| Ok (a : A)
| Raise (e : exn).
Arguments Ok {A} a.
Arguments Raise {A} e.

Definition bind {A B : Type} (r : result A) (k : A -> result B) : result B :=
  match r with
  | Ok a => k a
  | Raise e => Raise e
  end.

Notation "x <- r ;; k" := (bind r (fun x => k))
  (at level 61, r at next level, right associativity).
Notation "' p <- r ;; k" := (bind r (fun p => k))
  (at level 61, p pattern, r at next level, right associativity).

(** [self.abort(msg, loc)]. *)
Definition abort {A : Type} (msg : string) (loc : Location) : result A :=
  Raise (ParseError msg loc).

(** Raw Python data as it comes out of the YAML loader. *)
Inductive pyval : Type :=
| PNone
| PBool (b : bool)
| PInt (z : Z)
| PStr (s : string)
| PList (items : list pyval)
| PDict (items : list (string * pyval)).

(** [s] occurs in [msg]: the message names [s]. *)
Definition names (msg s : string) : Prop :=
  exists before after : string, msg = before ++ s ++ after.

(** The outcome of one iteration of a [for] loop body. *)
Inductive flow (S : Type) : Type :=
| Continue (s : S)
| Break (s : S).
Arguments Continue {S} s.
Arguments Break {S} s.

(** [for x in xs: body], threading the variables the loop assigns. *)
Fixpoint for_loop {A S : Type} (xs : list A)
  (body : A -> S -> result (flow S)) (s : S) : result S :=
  match xs with
  | [] => Ok s
  | x :: rest =>
      match body x s with
      | Raise e => Raise e
      | Ok (Break s') => Ok s'
      | Ok (Continue s') => for_loop rest body s'
      end
  end.

(** A loop body that has no [break]. *)
Definition never_breaks {B S : Type} (step : B -> S -> result (flow S)) : Prop :=
  forall y s s', step y s <> Ok (Break s').

(** A comprehension [[f(x) for x in xs]] whose element expression may raise. *)
Fixpoint map_result {A B : Type} (f : A -> result B) (xs : list A)
  : result (list B) :=
  match xs with
  | [] => Ok []
  | x :: rest =>
      y <- f x ;;
      ys <- map_result f rest ;;
      Ok (y :: ys)
  end.

(** ** Insertion-ordered dictionaries with [str] keys *)

Definition dict (V : Type) : Type := list (string * V).

Fixpoint dict_get {V : Type} (k : string) (d : dict V) : option V :=
  match d with
  | [] => None
  | (k', v) :: rest => if String.eqb k k' then Some v else dict_get k rest
  end.

Definition dict_mem {V : Type} (k : string) (d : dict V) : bool :=
  match dict_get k d with
  | Some _ => true
  | None => false
  end.

(** [d[k] = v]: an existing key keeps its position, a new key goes last. *)
Fixpoint dict_set {V : Type} (k : string) (v : V) (d : dict V) : dict V :=
  match d with
  | [] => [(k, v)]
  | (k', v') :: rest =>
      if String.eqb k k' then (k, v) :: rest
      else (k', v') :: dict_set k v rest
  end.

(** [d.pop(k)]. *)
Fixpoint dict_pop {V : Type} (k : string) (d : dict V) : dict V :=
  match d with
  | [] => []
  | (k', v') :: rest =>
      if String.eqb k k' then rest else (k', v') :: dict_pop k rest
  end.

Definition dict_keys {V : Type} (d : dict V) : list string := map fst d.

(** [d.update(other)]. *)
Definition dict_update {V : Type} (d other : dict V) : dict V :=
  fold_left (fun acc kv => dict_set (fst kv) (snd kv) acc) other d.

(** [{k: v for k, v in items}]. *)
Definition dict_of_items {V : Type} (items : list (string * V)) : dict V :=
  dict_update [] items.

(** The invariant of every Python [dict]: keys are pairwise distinct. *)
Definition dict_wf {V : Type} (d : dict V) : Prop := NoDup (dict_keys d).

(** ** Located YAML nodes ([parser/yaml/node.py]) *)

Module Yaml.

(** A node's value: a scalar, a sequence or a mapping from nodes to nodes.
    [YFloat m e] stands for the float [m * 2^e]; [YTuple] is never produced by
    the loader but the unit tests build nodes around it. *)
Inductive Node : Type :=
| mkNode (value : Value) (loc : Location)
with Value : Type :=
| YNull
| YBool (b : bool)
| YInt (z : Z)
| YFloat (m e : Z)
| YStr (s : string)
| YList (items : list Node)
| YTuple (items : list Node)
| YDict (items : list (Node * Node)).

Definition value (n : Node) : Value := let '(mkNode v _) := n in v.
Definition loc (n : Node) : Location := let '(mkNode _ l) := n in l.

(** Modelled from the spec: the [Node] constructor is not among the sources;
    a node built without a location (as [Node("type")] is) is a synthesized
    node, and the spec says that synthesized nodes still carry a location
    usable in diagnostics.  This is that location. *)
Definition synthesized_loc : Location := mkLoc "" 0 0.

(** [Node(value)], the one-argument constructor call. *)
Definition Node1 (v : Value) : Node := mkNode v synthesized_loc.

Definition is_str (v : Value) : bool :=
  match v with YStr _ => true | _ => false end.

Definition is_dict (v : Value) : bool :=
  match v with YDict _ => true | _ => false end.

End Yaml.

(** ** [CapabilityDefinition] ([capability_definition.py]) *)

Module CapabilityDefinition.
Import Yaml.

(** [CapabilityDefinition.normalize(yaml_node)]. *)
Definition normalize (yaml_node : Node) : result Node :=
  if negb (is_str (value yaml_node) || is_dict (value yaml_node)) then
    abort "Expected string or map." (loc yaml_node)
  else if is_str (value yaml_node) then
    Ok (Node1 (YDict [(Node1 (YStr "type"), yaml_node)]))
  else
    Ok yaml_node.

End CapabilityDefinition.

(** ** [Value] and [AttributeDefinition] ([attribute_definition.py]) *)

(** Modelled from the spec: the [Value] class is not among the sources.  The
    spec's data model gives a Value a raw payload and an is-function flag; the
    sources construct it as [Value(typ, flag, data=None)], so the record has
    the constructor's three arguments, the payload defaulting to [None]. *)
Record Value (Typ : Type) : Type := mkValue
  { value_type : option Typ;
    is_function : bool;
    payload : pyval }.
Arguments mkValue {Typ} _ _ _.
Arguments value_type {Typ} _.
Arguments is_function {Typ} _.
Arguments payload {Typ} _.

(** [Value(typ, flag)]: the payload argument is left at its default. *)
Definition Value2 {Typ : Type} (typ : option Typ) (flag : bool) : Value Typ :=
  mkValue typ flag PNone.

Module AttributeDefinition.

Section GetValue.

(** [Typ] is what callers pass as [typ]; [Void] is the parsed [default]
    attribute and [Void_get_value] its [get_value] method ([void.py], not
    among the sources). *)
Context {Typ Void SchemaDefinition : Type}.
Context (Void_get_value : Void -> option Typ -> Value Typ).

(** The attributes of the schema table [ATTRS]; an absent key is [None]. *)
Record t : Type := mkAttributeDefinition
  { type : string;
    description : option string;
    default : option Void;
    status : option string;
    key_schema : option SchemaDefinition;
    entry_schema : option SchemaDefinition }.

(** ["default" in self]. *)
Definition has_default (self : t) : bool :=
  match default self with Some _ => true | None => false end.

(** [AttributeDefinition.get_value(self, typ)]. *)
Definition get_value (self : t) (typ : option Typ) : Value Typ :=
  match default self with
  | Some d => Void_get_value d typ
  | None => Value2 typ false
  end.

End GetValue.
Arguments t : clear implicits.

End AttributeDefinition.

(** ** Template objects and [PolicyDefinition] ([policy_definition.py]) *)

(** A [Reference] / [ReferenceXOR] entity: the referenced name ([data]) and
    the container paths it is looked up under. *)
Record Reference : Type := mkReference
  { data : string;
    section_paths : list (list string) }.

Module Template.

Section Objects.
Context {Operation : Type}.

Record Interface : Type := mkInterface
  { operations : dict Operation }.

(** A node instance.  [types] is the resolved type-inheritance list, the
    node's own type first. *)
Record Node : Type := mkNode
  { types : list string;
    interfaces : dict Interface }.

(** [node.types[0]]. *)
Definition first_type (node : Node) : result string :=
  match types node with
  | [] => Raise IndexError
  | t :: _ => Ok t
  end.

End Objects.
Arguments Interface : clear implicits.
Arguments Node : clear implicits.

End Template.

Module PolicyDefinition.
Import Template.

(** The [.data] of a [call_operation] activity: a bare string (short
    notation), a mapping with an [operation] name and an [inputs] map
    (extended notation; an absent key is [None]), or anything else. *)
Inductive call_operation_data : Type :=
| CallShort (name : string)
| CallExtended (operation : option string) (inputs : option (dict pyval))
| CallOther (v : pyval).

(** One trigger activity: a mapping from the activity kind to its
    definition. *)
Definition Activity : Type := dict call_operation_data.

(** [target_filter]: the event filter of a trigger definition. *)
Record EventFilterDefinition : Type := mkEventFilter
  { node : option Reference }.

(** The attributes of a trigger definition that the policy reads; an absent
    key is [None]. *)
Record TriggerDefinition : Type := mkTriggerDefinition
  { event : option pyval;
    target_filter : option EventFilterDefinition;
    condition : option pyval;
    action : option (list Activity) }.

(** The resolved policy type as far as [collect_target_definitions] reads it:
    its [targets] list. *)
Record PolicyType : Type := mkPolicyType
  { type_targets : option (list Reference) }.

(** Entities ([Reference], [EventFilterDefinition], ...) define neither
    [__bool__] nor [__len__] in the sources read here, so a present entity is
    truthy: [if target_node:] and [assignments.get(name) or definition] test
    presence. *)

(** The policy definition entity itself ([self]). *)
Record t : Type := mkPolicyDefinition
  { loc : Location;
    type : Reference;
    targets : option (list Reference);
    triggers : option (dict TriggerDefinition) }.

Section Collect.
Context {Operation Entity Typ : Type}.

(** What the code reaches outside of this file: reference resolution against
    the service AST, the inherited trigger definitions of the policy type
    ([typ.collect_definitions("triggers", ...)]), and [Value.eval] against
    this policy. *)
Context (resolve_type : Reference -> result PolicyType).
Context (resolve_reference : Reference -> result Entity).
Context (collect_definitions_triggers :
           PolicyType -> result (dict TriggerDefinition)).
Context (eval : Value Typ -> string -> result pyval).

(** A collected trigger action:
    [(interface_name, operation_name, operation, extra_inputs)]. *)
Definition Action : Type :=
  (string * string * Operation * dict (Value Typ))%type.

(** The [Trigger] template object. *)
Record Trigger : Type := mkTrigger
  { trigger_name : string;
    trigger_event : option pyval;
    trigger_target_filter : option (string * Node Operation);
    trigger_condition : option pyval;
    trigger_action : list Action }.

(** [{target.data: target for target in targets}]. *)
Definition by_data (refs : option (list Reference)) : dict Reference :=
  dict_of_items
    (map (fun target => (data target, target))
         (match refs with Some l => l | None => [] end)).

(** [collect_target_definitions(typ)]. *)
Definition collect_target_definitions (typ : PolicyType) : dict Reference :=
  by_data (type_targets typ).

(** [collect_targets(service_ast)]. *)
Definition collect_targets (self : t) : result (dict Entity) :=
  typ <- resolve_type (type self) ;;
  let definitions := collect_target_definitions typ in
  let assignments := by_data (targets self) in
  let definitions :=
    if Nat.ltb 0 (List.length assignments) then assignments else definitions in
  items <- map_result
             (fun '(name, definition) =>
                r <- resolve_reference
                       (match dict_get name assignments with
                        | Some a => a
                        | None => definition
                        end) ;;
                Ok (name, r))
             definitions ;;
  Ok (dict_of_items items).

(** [node_name == name or node.types[0] == name]. *)
Definition name_or_first_type_is
  (node_name : string) (n : Node Operation) (name : string) : result bool :=
  if String.eqb node_name name then Ok true
  else (t0 <- first_type n ;; Ok (String.eqb t0 name)).

(** [resolve_targets(targets, nodes)]. *)
Definition resolve_targets {T : Type}
  (targets : dict T) (nodes : dict (Node Operation))
  : result (dict (Node Operation)) :=
  match targets with
  | [] => Ok []
  | _ :: _ =>
      for_loop (dict_keys targets)
        (fun target_name resolved_targets =>
           r <- for_loop nodes
                  (fun '(node_name, n) resolved_targets =>
                     b <- name_or_first_type_is node_name n target_name ;;
                     Ok (Continue
                           (if b then dict_set node_name n resolved_targets
                            else resolved_targets)))
                  resolved_targets ;;
           Ok (Continue r))
        []
  end.

(** The message of the fatal error of [collect_trigger_action_from_interfaces]. *)
Definition no_interface_message (call_operation_name : string) : string :=
  "Trigger action: " ++ call_operation_name ++
  " from call_operation does not belong to any node interface. " ++
  "Make sure that you have referenced it correctly (as <interface_sub_name>.<operation_sub_name>, where " ++
  "interface_sub_name is the interface name and the operation_sub_name is the name of the operation " ++
  "within this interface). The node that you're targeting with interface operation also has to be used " ++
  "in topology_template/node_templates section".

(** [{k: Value(None, True, Value(None, True, v).eval(self, k))
      for k, v in inputs.items()}]; [inputs] is [None] when the extended
    notation has no [inputs] key, and [None.items()] raises. *)
Definition extra_inputs (inputs : option (dict pyval))
  : result (dict (Value Typ)) :=
  match inputs with
  | None => Raise AttributeError
  | Some d =>
      items <- map_result
                 (fun '(k, v) =>
                    r <- eval (mkValue None true v) k ;;
                    Ok (k, mkValue None true r))
                 d ;;
      Ok (dict_of_items items)
  end.

(** [collect_trigger_action_from_interfaces(targeted_nodes,
      call_operation_name, action, inputs)].  The loop state is
    [(collected_action, actions_found)]; [break] leaves the innermost loop
    only. *)
Definition collect_trigger_action_from_interfaces (self : t)
  (targeted_nodes : dict (Node Operation)) (call_operation_name : string)
  (action : Activity) (inputs : option (dict pyval))
  : result (option Action) :=
  '(collected_action, actions_found) <-
    for_loop targeted_nodes
      (fun '(_, target_node) st =>
         st <- for_loop (interfaces target_node)
                 (fun '(interface_name, interface) st =>
                    st <- for_loop (operations interface)
                            (fun '(operation_name, operation) st =>
                               if String.eqb (interface_name ++ "." ++ operation_name)
                                             call_operation_name
                               then
                                 e <- extra_inputs inputs ;;
                                 Ok (Break
                                       (Some (interface_name, operation_name,
                                              operation, e),
                                        S (snd st)))
                               else Ok (Continue st))
                            st ;;
                    Ok (Continue st))
                 st ;;
         Ok (Continue st))
      (None, 0) ;;
  if Nat.eqb actions_found 0 then
    abort (no_interface_message call_operation_name) (loc self)
  else Ok collected_action.

(** [collect_trigger_target_nodes(target_filter, nodes, policy_targets)]. *)
Definition collect_trigger_target_nodes
  (target_filter : option (string * Entity)) (nodes : dict (Node Operation))
  (policy_targets : dict Entity) : result (dict (Node Operation)) :=
  match target_filter with
  | Some tf =>
      for_loop nodes
        (fun '(node_name, n) targeted_nodes =>
           b <- name_or_first_type_is node_name n (fst tf) ;;
           Ok (if b then Break (dict_set node_name n targeted_nodes)
               else Continue targeted_nodes))
        []
  | None =>
      match policy_targets with
      | _ :: _ =>
          for_loop nodes
            (fun '(node_name, n) targeted_nodes =>
               r <- for_loop policy_targets
                      (fun '(policy_target_name, _) targeted_nodes =>
                         t0 <- first_type n ;;
                         Ok (Continue
                               (if String.eqb policy_target_name node_name
                                   || String.eqb policy_target_name t0
                                then dict_set node_name n targeted_nodes
                                else targeted_nodes)))
                      targeted_nodes ;;
               Ok (Continue r))
            []
      | [] => Ok nodes
      end
  end.

(** [type(v)] as an f-string prints it. *)
Definition py_type (v : pyval) : string :=
  match v with
  | PNone => "<class 'NoneType'>"
  | PBool _ => "<class 'bool'>"
  | PInt _ => "<class 'int'>"
  | PStr _ => "<class 'str'>"
  | PList _ => "<class 'list'>"
  | PDict _ => "<class 'dict'>"
  end.

(** The body of the loop of [collect_trigger_actions] for one activity. *)
Definition collect_trigger_action (self : t) (activity : Activity)
  (target_filter : option (string * Entity)) (nodes : dict (Node Operation))
  (policy_targets : dict Entity) : result (option Action) :=
  match activity with
  | [] => Raise IndexError
  | (kind, _) :: _ =>
      if negb (String.eqb kind "call_operation") then
        abort ("Unsupported trigger activity definitions: " ++ kind ++
               ". Only call_operation is supported.") (loc self)
      else
        '(call_operation_name, inputs) <-
          match dict_get "call_operation" activity with
          | Some (CallShort name) => Ok (Some name, Some [])
          | Some (CallExtended operation inputs) => Ok (operation, inputs)
          | Some (CallOther v) =>
              abort ("Invalid call operation activity definition type: " ++
                     py_type v ++ ".") (loc self)
          | None => Raise AttributeError
          end ;;
        match call_operation_name with
        | None | Some "" =>
            abort "Missing required name for call_operation activity definition."
                  (loc self)
        | Some name =>
            targeted_nodes <-
              collect_trigger_target_nodes target_filter nodes policy_targets ;;
            collect_trigger_action_from_interfaces
              self targeted_nodes name activity inputs
        end
  end.

(** [collect_trigger_actions(definition, target_filter, nodes,
      policy_targets)]. *)
Definition collect_trigger_actions (self : t) (definition : TriggerDefinition)
  (target_filter : option (string * Entity)) (nodes : dict (Node Operation))
  (policy_targets : dict Entity) : result (list Action) :=
  for_loop (match action definition with Some l => l | None => [] end)
    (fun activity actions =>
       collected_action <-
         collect_trigger_action self activity target_filter nodes policy_targets ;;
       Ok (Continue
             (match collected_action with
              | Some a => (actions ++ [a])%list
              | None => actions
              end)))
    [].

(** [resolve_event_filter(target_filter, nodes)]. *)
Definition resolve_event_filter
  (target_filter : option (string * Entity)) (nodes : dict (Node Operation))
  : result (option (string * Node Operation)) :=
  match target_filter with
  | None => Ok None
  | Some tf =>
      for_loop nodes
        (fun '(node_name, n) resolved_target_filter =>
           b <- name_or_first_type_is node_name n (fst tf) ;;
           Ok (if b then Break (Some (node_name, n))
               else Continue resolved_target_filter))
        None
  end.

(** The message of the target_filter-versus-targets check. *)
Definition not_in_targets_message (node_name : string) : string :=
  "The node reference: " ++ node_name ++
  " from policy trigger's target_filter should be also " ++
  "present in policy's targets.".

(** [x in list(d)] for a dict [d]. *)
Definition in_keys {V : Type} (k : string) (d : dict V) : bool :=
  existsb (String.eqb k) (dict_keys d).

(** Lines 281-286 of [collect_triggers]: the inherited definitions whose name
    is also assigned are popped, then the assignments are written over the
    rest. *)
Definition merge_triggers (definitions assignments : dict TriggerDefinition)
  : dict TriggerDefinition :=
  let duplicate_triggers :=
    filter (fun k => dict_mem k definitions) (dict_keys assignments) in
  let definitions :=
    fold_left (fun d duplicate => dict_pop duplicate d)
              duplicate_triggers definitions in
  dict_update definitions assignments.

(** The body of the main loop of [collect_triggers] for one trigger. *)
Definition collect_trigger (self : t) (policy_targets : dict Entity)
  (nodes : dict (Node Operation)) (name : string)
  (definition : TriggerDefinition) : result Trigger :=
  target_filter <-
    match target_filter definition with
    | Some target_filter_definitions =>
        match node target_filter_definitions with
        | Some target_node =>
            r <- resolve_reference target_node ;;
            Ok (Some (data target_node, r))
        | None => abort "Cannot obtain node from target_filter." (loc self)
        end
    | None => Ok None
    end ;;
  _ <- match target_filter, policy_targets with
       | Some tf, _ :: _ =>
           if negb (in_keys (fst tf) policy_targets) then
             abort (not_in_targets_message (fst tf)) (loc self)
           else Ok tt
       | _, _ => Ok tt
       end ;;
  actions <-
    collect_trigger_actions self definition target_filter nodes policy_targets ;;
  resolved <- resolve_event_filter target_filter nodes ;;
  Ok (mkTrigger name (event definition) resolved (condition definition) actions).

(** [collect_triggers(service_ast, policy_targets, nodes)]. *)
Definition collect_triggers (self : t) (policy_targets : dict Entity)
  (nodes : dict (Node Operation)) : result (dict Trigger) :=
  typ <- resolve_type (type self) ;;
  definitions <- collect_definitions_triggers typ ;;
  let assignments := match triggers self with Some d => d | None => [] end in
  let definitions := merge_triggers definitions assignments in
  for_loop definitions
    (fun '(name, definition) triggers =>
       trigger <- collect_trigger self policy_targets nodes name definition ;;
       Ok (Continue (dict_set name trigger triggers)))
    [].

(** Python's [repr] of a [str] and [str] of a value are built-ins. *)
Context (py_repr : string -> string).
Context (py_str : pyval -> string).

(** [str(list_of_keys)]. *)
Definition py_list_repr (keys : list string) : string :=
  "[" ++ String.concat ", " (map py_repr keys) ++ "]".

(** [concat(params)]. *)
Definition concat (params : list pyval) : result string :=
  parts <- map_result
             (fun param => v <- eval (mkValue None true param) "" ;;
                           Ok (py_str v))
             params ;;
  Ok (String.concat "" parts).

(** [get_property(params)], reading [self.collected_properties].  The
    arguments of the function are names. *)
Definition get_property (collected_properties : dict (Value Typ))
  (params : list string) : result pyval :=
  match params with
  | host :: prop :: rest =>
      if negb (String.eqb host "SELF") then
        Raise (RuntimeError ("unknown host: " ++ host))
      else
        match dict_get prop collected_properties with
        | Some v => eval v prop
        | None =>
            Raise (RuntimeError
                     ("unknown property: " ++ prop ++ " (" ++
                      py_list_repr (dict_keys collected_properties) ++ ")"))
        end
  | _ => Raise ValueError
  end.

(** The [Policy] template object. *)
Record Policy : Type := mkPolicy
  { policy_name : string;
    policy_types : list string;
    policy_properties : dict (Value Typ);
    policy_targets : dict (Node Operation);
    policy_triggers : dict Trigger }.

(** [collect_properties] and [collect_types] come from [CollectorMixin]. *)
Context (collect_properties : t -> result (dict (Value Typ))).
Context (collect_types : t -> result (list string)).

(** [get_template(name, service_ast, nodes)]. *)
Definition get_template (self : t) (name : string)
  (nodes : dict (Node Operation)) : result Policy :=
  targets <- collect_targets self ;;
  collected_properties <- collect_properties self ;;
  types <- collect_types self ;;
  resolved <- resolve_targets targets nodes ;;
  triggers <- collect_triggers self targets nodes ;;
  Ok (mkPolicy name types collected_properties resolved triggers).

End Collect.

End PolicyDefinition.

(** ** The [parse] command ([commands/parse.py]) *)

Module Parse.

Section Commands.
Context {Path Topology Ast Archive : Type}.

(** The collaborators of the command: the file system tests, the archive
    class ([CloudServiceArchive.create], [validate_csar], [get_entrypoint],
    [isinstance(csar, DirCloudServiceArchive)], [unpackage_csar]), the
    temporary directory, [tosca.load] and the AST's [get_template]. *)
Context (is_zipfile is_dir : Path -> bool).
Context (create : Path -> result Archive).
Context (validate_csar : Archive -> result unit).
Context (get_entrypoint : Archive -> result (option Path)).
Context (is_dir_archive : Archive -> bool).
Context (temporary_directory : Path).
Context (unpackage_csar : Archive -> Path -> result unit).
Context (load : Path -> Path -> result Ast).
Context (get_template : Ast -> dict pyval -> result Topology).
Context (parent name : Path -> Path).

(** [if inputs is None: inputs = {}]. *)
Definition inputs_or_empty (inputs : option (dict pyval)) : dict pyval :=
  match inputs with
  | Some d => d
  | None => []
  end.

(** [parse_csar(csar_path, inputs)].  A Python function that reaches its end
    without a [return] returns [None]: that is [Ok None] here. *)
Definition parse_csar (csar_path : Path) (inputs : option (dict pyval))
  : result (option Topology) :=
  let inputs := inputs_or_empty inputs in
  csar <- create csar_path ;;
  _ <- validate_csar csar ;;
  entrypoint <- get_entrypoint csar ;;
  match entrypoint with
  | Some entrypoint =>
      if is_dir_archive csar then
        let workdir := csar_path in
        ast <- load workdir entrypoint ;;
        topology <- get_template ast inputs ;;
        Ok (Some topology)
      else
        let csar_validation_dir := temporary_directory in
        _ <- unpackage_csar csar csar_validation_dir ;;
        let workdir := csar_validation_dir in
        ast <- load workdir entrypoint ;;
        topology <- get_template ast inputs ;;
        Ok (Some topology)
  | None => Ok None
  end.

(** [parse_service_template(service_template_path, inputs)]. *)
Definition parse_service_template (service_template_path : Path)
  (inputs : option (dict pyval)) : result (option Topology) :=
  let inputs := inputs_or_empty inputs in
  let workdir := parent service_template_path in
  ast <- load workdir (name service_template_path) ;;
  topology <- get_template ast inputs ;;
  Ok (Some topology).

(** [parse(csar_or_st_path, inputs)]. *)
Definition parse (csar_or_st_path : Path) (inputs : option (dict pyval))
  : result (option Topology) :=
  if is_zipfile csar_or_st_path || is_dir csar_or_st_path then
    parse_csar csar_or_st_path inputs
  else
    parse_service_template csar_or_st_path inputs.

End Commands.

End Parse.

(** ** Vocabulary of the properties *)

Section Vocabulary.
Import Template.
Context {Operation : Type}.

(** Every node instance has at least its own type in [types]; this is how
    node instances are built, and [node.types[0]] relies on it. *)
Definition have_types (nodes : dict (Node Operation)) : Prop :=
  forall name n, In (name, n) nodes -> types n <> [].

(** The matching rule in the spec's words: the target name equals the
    instance's template name, or the first entry of its type list. *)
Definition target_matches (target : string) (x : string * Node Operation) : bool :=
  String.eqb target (fst x)
  || match types (snd x) with
     | t0 :: _ => String.eqb target t0
     | [] => false
     end.

(** The operation of one interface that a dotted name designates, if any. *)
Definition interface_match (call_operation_name : string)
  (i : string * Interface Operation) : list (string * string * Operation) :=
  match find (fun o => String.eqb (fst i ++ "." ++ fst o) call_operation_name)
             (operations (snd i)) with
  | Some o => [(fst i, fst o, snd o)]
  | None => []
  end.

(** All operations of the candidate nodes that the dotted name designates, in
    iteration order: node by node, interface by interface. *)
Definition matching_operations (call_operation_name : string)
  (nodes : dict (Node Operation)) : list (string * string * Operation) :=
  flat_map (fun x => flat_map (interface_match call_operation_name)
                              (interfaces (snd x)))
           nodes.

(** All the writes of [resolve_targets], in the order they happen. *)
Definition resolved_writes (target_names : list string)
  (nodes : dict (Node Operation)) : list (string * Node Operation) :=
  flat_map (fun target => filter (target_matches target) nodes) target_names.

(** A node instance matches some policy target. *)
Definition matches_some_target {Entity : Type} (policy_targets : dict Entity)
  (x : string * Node Operation) : bool :=
  existsb (fun target => target_matches target x) (dict_keys policy_targets).

(** What one match does to the loop state [(collected_action, actions_found)]
    of [collect_trigger_action_from_interfaces]. *)
Definition record_match {Typ : Type}
  (eval : Value Typ -> string -> result pyval) (inputs : option (dict pyval))
  (m : string * string * Operation)
  (st : option (@PolicyDefinition.Action Operation Typ) * nat)
  : result (flow (option (@PolicyDefinition.Action Operation Typ) * nat)) :=
  e <- PolicyDefinition.extra_inputs eval inputs ;;
  Ok (Continue (Some (m, e), S (snd st))).


End Vocabulary.

(** ** Example data *)

(** Two node templates; an operation is the name of its implementation. *)
Definition web : Template.Node string :=
  Template.mkNode ["WebServer"; "Compute"; "Root"]
    [("Standard",
      Template.mkInterface
        [("create", "web_create.yml"); ("delete", "web_delete.yml")])].

Definition db : Template.Node string :=
  Template.mkNode ["Database"; "Root"]
    [("Standard", Template.mkInterface [("create", "db_create.yml")])].

Definition example_nodes : dict (Template.Node string) :=
  [("web", web); ("db", db)].

(** Python's [repr] of a name without quotes or escapes in it: these are the
    only names the examples below use. *)
Definition quote_repr (s : string) : string := "'" ++ s ++ "'".

(** A literal Value evaluates to its payload. *)
Definition eval_literal (v : Value unit) (_ : string) : result pyval :=
  Ok (payload v).

Definition example_properties : dict (Value unit) :=
  [("size", mkValue None true (PInt 3)); ("zone", mkValue None true (PStr "a"))].




(** A policy definition at line 10 of the service template, without explicit
    targets or triggers. *)
Definition example_policy : PolicyDefinition.t :=
  PolicyDefinition.mkPolicyDefinition
    (mkLoc "service.yaml" 10 3)
    (mkReference "my.policies.Scale" [["policy_types"]])
    None None.

(** The reference paths of the schema table: an explicit target is looked up
    among the node templates or the groups. *)
Definition target_paths : list (list string) :=
  [["topology_template"; "node_templates"]; ["topology_template"; "groups"]].

(** A policy type that declares the target [WebServer] and a [scale] trigger
    with a condition. *)
Definition example_type : PolicyDefinition.PolicyType :=
  PolicyDefinition.mkPolicyType (Some [mkReference "WebServer" [["node_types"]]]).

Definition inherited_scale : PolicyDefinition.TriggerDefinition :=
  PolicyDefinition.mkTriggerDefinition
    (Some (PStr "overload")) None (Some (PStr "cpu > 80"))
    (Some [[("call_operation", PolicyDefinition.CallShort "Standard.create")]]).

(** The template-level [scale] trigger: a target filter on [web], no
    condition, another operation. *)
Definition explicit_scale : PolicyDefinition.TriggerDefinition :=
  PolicyDefinition.mkTriggerDefinition
    (Some (PStr "overload"))
    (Some (PolicyDefinition.mkEventFilter (Some (mkReference "web" target_paths))))
    None
    (Some [[("call_operation", PolicyDefinition.CallShort "Standard.delete")]]).

(** A policy with the explicit target [db] and the explicit trigger. *)
Definition targeted_policy : PolicyDefinition.t :=
  PolicyDefinition.mkPolicyDefinition
    (mkLoc "service.yaml" 20 3)
    (mkReference "my.policies.Scale" [["policy_types"]])
    (Some [mkReference "db" target_paths])
    (Some [("scale", explicit_scale)]).

(** The same policy without targets, of a policy type without targets. *)
Definition untargeted_policy : PolicyDefinition.t :=
  PolicyDefinition.mkPolicyDefinition
    (mkLoc "service.yaml" 20 3)
    (mkReference "my.policies.Plain" [["policy_types"]])
    None
    (Some [("scale", explicit_scale)]).

(** Resolution in the examples: every policy type name resolves to
    [example_type] except [my.policies.Plain], which declares nothing; a
    reference resolves to itself; the only inherited trigger is
    [inherited_scale]. *)
Definition example_resolve_type (r : Reference)
  : result PolicyDefinition.PolicyType :=
  if String.eqb (data r) "my.policies.Plain"
  then Ok (PolicyDefinition.mkPolicyType None)
  else Ok example_type.

Definition example_resolve_reference (r : Reference) : result Reference := Ok r.

Definition example_inherited_triggers (typ : PolicyDefinition.PolicyType)
  : result (dict PolicyDefinition.TriggerDefinition) :=
  match PolicyDefinition.type_targets typ with
  | Some _ => Ok [("scale", inherited_scale)]
  | None => Ok []
  end.

(** ** The callback of the [parse] command ([_parser_callback]) *)

Module Cli.

(** What [yaml.safe_load(args.inputs)] gives: the loaded inputs (an empty
    file loads as [None]) or a [yaml.YAMLError]. *)
Inductive loaded : Type :=
| Loaded (inputs : option (dict pyval))
| YAMLError (msg : string).

Section Callback.
Context {Path Topology InputsFile : Type}.

(** [args]: the parsed command line. *)
Record Namespace : Type := mkNamespace
  { inputs : option InputsFile;
    csar_or_service_template : option string }.

(** [yaml.safe_load], the [PurePath] constructor, how a location prints, and
    the [parse] function of the command (any function of that type: the
    callback only calls it). *)
Context (safe_load : InputsFile -> loaded).
Context (PurePath : string -> Path).
Context (loc_str : Location -> string).
Context (parse : Path -> option (dict pyval) -> result (option Topology)).

(** [yaml.safe_load(args.inputs) if args.inputs else {}]. *)
Definition load_inputs (args : Namespace) : loaded :=
  match inputs args with
  | Some file => safe_load file
  | None => Loaded (Some [])
  end.

(** [csar_or_st_path]: the path argument, or the current directory. *)
Definition path_argument (args : Namespace) : Path :=
  match csar_or_service_template args with
  | None => PurePath "."
  | Some s => PurePath s
  end.

(** [_parser_callback(args)]: what it prints, line by line, and the exit
    code it returns or the exception that escapes it.  An exception prints as
    its message. *)
Definition _parser_callback (args : Namespace) : list string * result nat :=
  match load_inputs args with
  | YAMLError e => (["Invalid inputs: " ++ e], Ok 1)
  | Loaded inputs =>
      let csar_or_st_path := path_argument args in
      match parse csar_or_st_path inputs with
      | Ok _ =>
          (["Parsing TOSCA CSAR or service template..."; "Done."], Ok 0)
      | Raise (ParseError msg loc) =>
          (["Parsing TOSCA CSAR or service template...";
            loc_str loc ++ ": " ++ msg], Ok 1)
      | Raise (OperaToscaParserError msg) =>
          (["Parsing TOSCA CSAR or service template..."; msg], Ok 1)
      | Raise e => (["Parsing TOSCA CSAR or service template..."], Raise e)
      end
  end.

End Callback.
Arguments Namespace : clear implicits.

End Cli.

(** ** More vocabulary *)

Section MoreVocabulary.
Import Template.
Context {Operation : Type}.

(** Testing [target] against this node evaluates [node.types[0]] on an empty
    [types]: the node has no type and its name is not the target name. *)
Definition untyped_miss (target : string) (x : string * Node Operation) : bool :=
  match types (snd x) with
  | [] => negb (String.eqb (fst x) target)
  | _ :: _ => false
  end.

(** Some target name meets some such node. *)
Definition hits_untyped_node (target_names : list string)
  (nodes : dict (Node Operation)) : bool :=
  existsb (fun target => existsb (untyped_miss target) nodes) target_names.

(** The operation name a [call_operation] activity asks for, in either
    notation. *)
Definition activity_name (activity : PolicyDefinition.Activity)
  : option string :=
  match dict_get "call_operation" activity with
  | Some (PolicyDefinition.CallShort name) => Some name
  | Some (PolicyDefinition.CallExtended operation _) => operation
  | _ => None
  end.

(** [<interface>.<operation>] of a collected action. *)
Definition dotted_name {Typ : Type}
  (a : @PolicyDefinition.Action Operation Typ) : string :=
  fst (fst (fst a)) ++ "." ++ snd (fst (fst a)).

(** The inherited definitions that no explicit assignment overrides. *)
Definition not_overridden {V : Type} (inherited assignments : dict V) : dict V :=
  filter (fun kv => negb (dict_mem (fst kv) assignments)) inherited.

End MoreVocabulary.

(** A policy with the explicit target [web] and the explicit [scale]
    trigger, of a type that declares the target [WebServer] and its own
    [scale] trigger. *)
Definition web_policy : PolicyDefinition.t :=
  PolicyDefinition.mkPolicyDefinition
    (mkLoc "service.yaml" 30 3)
    (mkReference "my.policies.Scale" [["policy_types"]])
    (Some [mkReference "web" target_paths])
    (Some [("scale", explicit_scale)]).

(** The trigger built from [explicit_scale] on the example nodes. *)
Definition explicit_scale_trigger : @PolicyDefinition.Trigger string unit :=
  PolicyDefinition.mkTrigger "scale" (Some (PStr "overload"))
    (Some ("web", web)) None
    [("Standard", "delete", "web_delete.yml", [])].

(** A node instance without any type and without interfaces. *)
Definition orphan : Template.Node string := Template.mkNode [] [].

(** An evaluation that knows no function: a mapping payload raises. *)
Definition eval_no_functions (v : Value unit) (_ : string) : result pyval :=
  match payload v with
  | PDict _ => Raise (RuntimeError "unknown function")
  | p => Ok p
  end.

(** [str] on the strings of the examples. *)
Definition example_str (v : pyval) : string :=
  match v with
  | PStr s => s
  | _ => "?"
  end.

(** [parse] on string paths, over an archive class whose directory archives
    all validate and have the entrypoint [service.yaml]; the AST is the path
    of the loaded file and the topology the number of inputs. *)
Definition parse_with_entrypoint (path : string) (inputs : option (dict pyval))
  : result (option nat) :=
  Parse.parse
    (Path := string) (Topology := nat) (Ast := string) (Archive := string)
    (fun _ => false) (fun path => String.eqb path "csar_dir")
    (fun path => Ok path) (fun _ => Ok tt) (fun _ => Ok (Some "service.yaml"))
    (fun _ => true) "/tmp/dir" (fun _ _ => Ok tt)
    (fun workdir entry => Ok (workdir ++ "/" ++ entry))
    (fun _ inputs => Ok (List.length inputs))
    (fun path => path) (fun path => path)
    path inputs.

(* ================================================================== *)
(** * Part II. Properties *)
(* ================================================================== *)

(** ** Strings and messages *)

Lemma append_assoc (a b c : string) : (a ++ b) ++ c = a ++ (b ++ c).
Proof.
  induction a as [|ch a IH]; simpl; [reflexivity | now rewrite IH].
Qed.

Lemma append_nil_r (a : string) : a ++ "" = a.
Proof.
  induction a as [|ch a IH]; simpl; [reflexivity | now rewrite IH].
Qed.

Lemma names_refl (s : string) : names s s.
Proof. exists "", "". simpl. now rewrite append_nil_r. Qed.

Lemma names_prefix (p msg s : string) : names msg s -> names (p ++ msg) s.
Proof.
  intros (b & a & ->). exists (p ++ b), a. now rewrite append_assoc.
Qed.

Lemma names_suffix (msg q s : string) : names msg s -> names (msg ++ q) s.
Proof.
  intros (b & a & ->). exists b, (a ++ q). now rewrite !append_assoc.
Qed.

Lemma names_concat (sep x : string) (l : list string) :
  In x l -> names (String.concat sep l) x.
Proof.
  induction l as [|y l IH]; simpl; [tauto |].
  intros [-> | Hin].
  - destruct l; [apply names_refl | apply names_suffix, names_refl].
  - destruct l as [|z l]; [destruct Hin |].
    apply names_prefix, names_prefix, IH, Hin.
Qed.

Create HintDb names.
#[local] Hint Resolve names_refl names_prefix names_suffix : names.

(** ** [CapabilityDefinition.normalize] *)

Section NormalizeFacts.
Import Yaml CapabilityDefinition.

(** C8. [CapabilityDefinition.normalize] promotes a bare string node with
    value [s] to the single-key mapping [{type: s}], returns a mapping node
    unchanged, rejects every other shape with a [ParseError] carrying the
    node's location, and normalizing twice is the same as normalizing once. *)
Theorem normalize_shapes_and_idempotent :
  (forall s l,
      normalize (mkNode (YStr s) l)
      = Ok (Node1 (YDict [(Node1 (YStr "type"), mkNode (YStr s) l)])))
  /\ (forall items l,
         normalize (mkNode (YDict items) l) = Ok (mkNode (YDict items) l))
  /\ (forall n,
         is_str (value n) = false -> is_dict (value n) = false ->
         normalize n = Raise (ParseError "Expected string or map." (loc n))
         /\ carries_location (ParseError "Expected string or map." (loc n))
            = true)
  /\ (forall n, (n' <- normalize n ;; normalize n') = normalize n).
Proof.
  split; [reflexivity |].
  split; [reflexivity |].
  split.
  - intros n Hstr Hdict. unfold normalize.
    rewrite Hstr, Hdict. simpl. split; reflexivity.
  - intros [v l]. unfold normalize; simpl.
    destruct v; reflexivity.
Qed.

(** The rejected shapes of the unit tests: [1], [2.3], [True], [()], [[]]. *)
Lemma normalize_shapes_and_idempotent_witness :
  normalize (Node1 (YInt 1))
  = Raise (ParseError "Expected string or map." synthesized_loc)
  /\ normalize (Node1 (YList []))
     = Raise (ParseError "Expected string or map." synthesized_loc).
Proof.
  split.
  - apply (proj1 (proj1 (proj2 (proj2 normalize_shapes_and_idempotent))
                    (Node1 (YInt 1)) eq_refl eq_refl)).
  - apply (proj1 (proj1 (proj2 (proj2 normalize_shapes_and_idempotent))
                    (Node1 (YList [])) eq_refl eq_refl)).
Defined.

End NormalizeFacts.

(** ** [AttributeDefinition.get_value] *)

Section GetValueFacts.
Import AttributeDefinition.
Context {Typ Void SchemaDefinition : Type}.
Context (Void_get_value : Void -> option Typ -> Value Typ).

Lemma has_default_iff (self : t Void SchemaDefinition) :
  has_default self = true <-> exists d, default self = Some d.
Proof.
  unfold has_default. destruct (default self) as [d|].
  - split; [eauto | reflexivity].
  - split; [discriminate | intros [d Hd]; discriminate].
Qed.

(** C10. When the entity has a [default] attribute, [get_value] is what the
    default's own [get_value] gives for [typ]; otherwise it is the Value of
    type [typ] whose flag is [False] and which has no payload. *)
Theorem get_value_default_or_empty
  (self : t Void SchemaDefinition) (typ : option Typ) :
  (forall d, default self = Some d ->
             has_default self = true
             /\ get_value Void_get_value self typ = Void_get_value d typ)
  /\ (default self = None ->
      has_default self = false
      /\ get_value Void_get_value self typ = mkValue typ false PNone
      /\ value_type (get_value Void_get_value self typ) = typ
      /\ is_function (get_value Void_get_value self typ) = false
      /\ payload (get_value Void_get_value self typ) = PNone).
Proof.
  unfold get_value, has_default. split.
  - intros d ->. split; reflexivity.
  - intros ->. repeat split.
Qed.

End GetValueFacts.

(** An attribute of type [integer] without a default, and one whose default
    is the number 3 (the default's [get_value] wraps its data as it is). *)
Lemma get_value_default_or_empty_witness :
  let wrap := fun (d : pyval) (typ : option string) => mkValue typ true d in
  let plain :=
    AttributeDefinition.mkAttributeDefinition (Void := pyval)
      (SchemaDefinition := unit) "integer" None None None None None in
  let with_default :=
    AttributeDefinition.mkAttributeDefinition (Void := pyval)
      (SchemaDefinition := unit) "integer" None (Some (PInt 3)) None None None in
  AttributeDefinition.get_value wrap plain (Some "integer")
  = mkValue (Some "integer") false PNone
  /\ AttributeDefinition.get_value wrap with_default (Some "integer")
     = mkValue (Some "integer") true (PInt 3).
Proof.
  intros wrap plain with_default. split.
  - apply (proj2 (get_value_default_or_empty wrap plain (Some "integer"))
             eq_refl).
  - apply (proj1 (get_value_default_or_empty wrap with_default (Some "integer"))
             (PInt 3) eq_refl).
Defined.

(** ** [get_property] *)

Section GetPropertyFacts.
Import PolicyDefinition.
Context {Typ : Type}.
Context (eval : Value Typ -> string -> result pyval).
Context (py_repr : string -> string).

Lemma unknown_property_lists_keys (prop : string) (keys : list string) (k : string) :
  In k keys ->
  names ("unknown property: " ++ prop ++ " (" ++ py_list_repr py_repr keys ++ ")")
        (py_repr k).
Proof.
  intros Hin. unfold py_list_repr.
  do 3 apply names_prefix. apply names_suffix, names_prefix, names_suffix.
  apply names_concat, in_map, Hin.
Qed.

(** C6 (as the code has it). [get_property] with a host other than ["SELF"]
    fails with an error whose message names the host; with host ["SELF"] and a
    property name absent from the collected properties it fails with an error
    whose message names the property and lists every known property name.
    Both errors are a plain [RuntimeError]: they carry a message only, no
    source location. *)
Theorem get_property_failures
  (collected_properties : dict (Value Typ)) (host prop : string)
  (rest : list string) :
  (host <> "SELF" ->
   exists msg,
     get_property eval py_repr collected_properties (host :: prop :: rest)
     = Raise (RuntimeError msg)
     /\ names msg host
     /\ carries_location (RuntimeError msg) = false)
  /\ (host = "SELF" -> dict_get prop collected_properties = None ->
      exists msg,
        get_property eval py_repr collected_properties (host :: prop :: rest)
        = Raise (RuntimeError msg)
        /\ names msg prop
        /\ (forall k, In k (dict_keys collected_properties) ->
                      names msg (py_repr k))
        /\ carries_location (RuntimeError msg) = false).
Proof.
  split.
  - intros Hhost. exists ("unknown host: " ++ host).
    unfold get_property.
    destruct (String.eqb_spec host "SELF") as [E | _]; [contradiction |].
    cbn [negb]. split; [reflexivity |].
    split; [apply names_prefix, names_refl | reflexivity].
  - intros -> Hnone.
    exists ("unknown property: " ++ prop ++ " (" ++
            py_list_repr py_repr (dict_keys collected_properties) ++ ")").
    unfold get_property. rewrite Hnone, String.eqb_refl. cbn [negb].
    split; [reflexivity |]. split; [| split; [| reflexivity]].
    + apply names_prefix, names_suffix, names_refl.
    + intros k Hin. now apply unknown_property_lists_keys.
Qed.

End GetPropertyFacts.

Lemma get_property_failures_witness :
  (exists msg,
      PolicyDefinition.get_property eval_literal quote_repr example_properties
        ["HOST"; "size"]
      = Raise (RuntimeError msg)
      /\ names msg "HOST"
      /\ carries_location (RuntimeError msg) = false)
  /\ (exists msg,
         PolicyDefinition.get_property eval_literal quote_repr example_properties
           ["SELF"; "colour"]
         = Raise (RuntimeError msg)
         /\ names msg "colour"
         /\ (forall k, In k (dict_keys example_properties) ->
                       names msg (quote_repr k))
         /\ carries_location (RuntimeError msg) = false).
Proof.
  split.
  - apply (proj1 (get_property_failures eval_literal quote_repr
                    example_properties "HOST" "size" [])).
    discriminate.
  - apply (proj2 (get_property_failures eval_literal quote_repr
                    example_properties "SELF" "colour" []));
      reflexivity.
Defined.

(** The two failures of [get_property] at concrete arguments: the error raised
    is a [RuntimeError], which has no location. *)
Lemma get_property_error_has_no_location :
  PolicyDefinition.get_property eval_literal quote_repr example_properties
    ["HOST"; "size"]
  = Raise (RuntimeError "unknown host: HOST")
  /\ carries_location (RuntimeError "unknown host: HOST") = false
  /\ PolicyDefinition.get_property eval_literal quote_repr example_properties
       ["SELF"; "colour"]
     = Raise (RuntimeError "unknown property: colour (['size', 'zone'])")
  /\ carries_location
       (RuntimeError "unknown property: colour (['size', 'zone'])") = false.
Proof. repeat split. Qed.

(** ** The [parse] command *)

Section ParseFacts.
Import Parse.
Context {Path Topology Ast Archive : Type}.
Context (is_zipfile is_dir : Path -> bool).
Context (create : Path -> result Archive).
Context (validate_csar : Archive -> result unit).
Context (get_entrypoint : Archive -> result (option Path)).
Context (is_dir_archive : Archive -> bool).
Context (temporary_directory : Path).
Context (unpackage_csar : Archive -> Path -> result unit).
Context (load : Path -> Path -> result Ast).
Context (get_template : Ast -> dict pyval -> result Topology).
Context (parent name : Path -> Path).

#[local] Abbreviation parse_csar :=
  (parse_csar create validate_csar get_entrypoint is_dir_archive
     temporary_directory unpackage_csar load get_template).
#[local] Abbreviation parse :=
  (parse is_zipfile is_dir create validate_csar get_entrypoint is_dir_archive
     temporary_directory unpackage_csar load get_template parent name).

(** [parse_csar] returns [None] exactly when the archive is created and
    validated and then reports no entrypoint. *)
Lemma parse_csar_returns_None_iff (csar_path : Path) (inputs : option (dict pyval)) :
  parse_csar csar_path inputs = Ok None
  <-> exists csar,
      create csar_path = Ok csar
      /\ validate_csar csar = Ok tt
      /\ get_entrypoint csar = Ok None.
Proof.
  unfold Parse.parse_csar. split.
  - destruct (create csar_path) as [csar|e]; simpl; [| discriminate].
    destruct (validate_csar csar) as [[]|e] eqn:Hv; simpl; [| discriminate].
    destruct (get_entrypoint csar) as [[entry|]|e] eqn:He; simpl;
      [| intros _; exists csar; auto | discriminate].
    destruct (is_dir_archive csar).
    + destruct (load csar_path entry) as [ast|e]; simpl; [| discriminate].
      destruct (get_template ast _); simpl; discriminate.
    + destruct (unpackage_csar csar temporary_directory); simpl; [| discriminate].
      destruct (load temporary_directory entry) as [ast|e]; simpl; [| discriminate].
      destruct (get_template ast _); simpl; discriminate.
  - intros (csar & -> & Hv & He). simpl. rewrite Hv. simpl. now rewrite He.
Qed.

(** A plain service template never yields [None]. *)
Lemma parse_service_template_never_None
  (path : Path) (inputs : option (dict pyval)) :
  parse_service_template load get_template parent name path inputs <> Ok None.
Proof.
  unfold parse_service_template.
  destruct (load _ _) as [ast|e]; simpl; [| discriminate].
  destruct (get_template ast _); simpl; discriminate.
Qed.

End ParseFacts.


(** ** Loops and dictionaries *)

Section LoopFacts.
Local Open Scope list_scope.
Context {A S : Type}.

Lemma bind_Ok_r {B : Type} (r : result B) : (x <- r ;; Ok x) = r.
Proof. now destruct r. Qed.

(** A loop whose body never raises and never breaks is a left fold. *)
Lemma for_loop_fold (f : A -> S -> S) (body : A -> S -> result (flow S))
  (xs : list A) :
  (forall x s, In x xs -> body x s = Ok (Continue (f x s))) ->
  forall s, for_loop xs body s = Ok (fold_left (fun s x => f x s) xs s).
Proof.
  induction xs as [|x xs IH]; intros Hbody s; simpl; [reflexivity |].
  rewrite Hbody by (now left).
  apply IH. intros y s' Hy. apply Hbody. now right.
Qed.

Lemma for_loop_app {B : Type} (step : B -> S -> result (flow S))
  (ys zs : list B) (s : S) :
  never_breaks step ->
  for_loop (ys ++ zs) step s = (s' <- for_loop ys step s ;; for_loop zs step s').
Proof.
  intros Hnb. revert s. induction ys as [|y ys IH]; intros s; simpl;
    [reflexivity |].
  destruct (step y s) as [[s'|s']|e] eqn:E; simpl; auto.
  now apply Hnb in E.
Qed.

(** Nested loops whose inner loop never breaks are one loop over the
    concatenation of the inner sequences. *)
Lemma for_loop_flat_map {B : Type} (g : A -> list B)
  (step : B -> S -> result (flow S)) (body : A -> S -> result (flow S))
  (xs : list A) :
  never_breaks step ->
  (forall x s, In x xs ->
               body x s = (s' <- for_loop (g x) step s ;; Ok (Continue s'))) ->
  forall s, for_loop xs body s = for_loop (flat_map g xs) step s.
Proof.
  intros Hnb. induction xs as [|x xs IH]; intros Hbody s; simpl;
    [reflexivity |].
  rewrite for_loop_app by assumption.
  rewrite Hbody by (now left).
  destruct (for_loop (g x) step s) as [s'|e]; simpl; [| reflexivity].
  apply IH. intros y s0 Hy. apply Hbody. now right.
Qed.

End LoopFacts.

Section DictFacts.
Local Open Scope list_scope.
Context {V : Type}.
Implicit Types (d : dict V) (k : string) (v : V).

Lemma dict_get_set k k' v d :
  dict_get k (dict_set k' v d)
  = if String.eqb k k' then Some v else dict_get k d.
Proof.
  induction d as [|[k0 v0] d IH]; simpl.
  - reflexivity.
  - destruct (String.eqb_spec k' k0) as [-> | Hne]; simpl.
    + destruct (String.eqb k k0); reflexivity.
    + destruct (String.eqb_spec k k0) as [-> | Hne'].
      * destruct (String.eqb_spec k0 k'); [congruence | reflexivity].
      * exact IH.
Qed.

Lemma dict_get_In k v d : dict_get k d = Some v -> In (k, v) d.
Proof.
  induction d as [|[k0 v0] d IH]; simpl; [discriminate |].
  destruct (String.eqb_spec k k0) as [-> | _].
  - intros [= ->]. now left.
  - intros H. right. auto.
Qed.

Lemma dict_get_None k d : dict_get k d = None <-> ~ In k (dict_keys d).
Proof.
  induction d as [|[k0 v0] d IH]; simpl; [tauto |].
  destruct (String.eqb_spec k k0) as [-> | Hne].
  - split; [discriminate | intros H; exfalso; apply H; now left].
  - rewrite IH. split; [intros H [E | Hin]; [congruence | tauto] | tauto].
Qed.

Lemma dict_keys_get k d :
  In k (dict_keys d) <-> exists v, dict_get k d = Some v.
Proof.
  destruct (dict_get k d) as [v|] eqn:E.
  - split; [eauto |]. intros _. apply dict_get_In in E.
    apply (in_map fst) in E. exact E.
  - apply dict_get_None in E. split; [tauto | intros [v Hv]; discriminate].
Qed.

(** In a well-formed dictionary a key has one value. *)
Lemma dict_wf_get k v d : dict_wf d -> In (k, v) d -> dict_get k d = Some v.
Proof.
  unfold dict_wf. induction d as [|[k0 v0] d IH]; simpl; [tauto |].
  intros Hnd [[= -> ->] | Hin].
  - now rewrite String.eqb_refl.
  - inversion Hnd as [|? ? Hnotin Hnd']; subst.
    destruct (String.eqb_spec k k0) as [-> | _]; [| auto].
    exfalso. apply Hnotin. apply (in_map fst) in Hin. exact Hin.
Qed.

Lemma dict_update_app d l1 l2 :
  dict_update d (l1 ++ l2) = dict_update (dict_update d l1) l2.
Proof. unfold dict_update. apply fold_left_app. Qed.

(** After [d.update(l)] a key holds the value of its last occurrence in [l],
    or what it held in [d]. *)
Lemma dict_get_update k l : forall d,
  dict_get k (dict_update d l)
  = match dict_get k (rev l) with
    | Some v => Some v
    | None => dict_get k d
    end.
Proof.
  induction l as [|[k0 v0] l IH] using rev_ind; intros d; [reflexivity |].
  rewrite dict_update_app, rev_unit. simpl.
  rewrite dict_get_set. destruct (String.eqb k k0); [reflexivity | apply IH].
Qed.

Lemma dict_set_fresh k v d :
  ~ In k (dict_keys d) -> dict_set k v d = (d ++ [(k, v)])%list.
Proof.
  induction d as [|[k0 v0] d IH]; simpl; [reflexivity |].
  intros Hnotin. destruct (String.eqb_spec k k0) as [-> | _]; [tauto |].
  now rewrite IH by tauto.
Qed.

Lemma dict_set_same k v d :
  dict_set k v (dict_set k v d) = dict_set k v d.
Proof.
  induction d as [|[k0 v0] d IH]; simpl.
  - now rewrite String.eqb_refl.
  - destruct (String.eqb_spec k k0) as [-> | Hne]; simpl.
    + now rewrite String.eqb_refl.
    + destruct (String.eqb_spec k k0); [congruence | now rewrite IH].
Qed.

(** Writing pairwise distinct new keys appends them in order. *)
Lemma dict_update_fresh l : forall d,
  NoDup (dict_keys (d ++ l)) -> dict_update d l = (d ++ l)%list.
Proof.
  induction l as [|[k v] l IH]; intros d Hnd; simpl.
  - now rewrite app_nil_r.
  - change (dict_update (dict_set k v d) l = (d ++ (k, v) :: l)%list).
    assert (Hd : ~ In k (dict_keys d)).
    { unfold dict_keys in *. rewrite map_app in Hnd. simpl in Hnd.
      apply NoDup_remove_2 in Hnd. intros Hin. apply Hnd.
      apply in_or_app. now left. }
    rewrite dict_set_fresh by exact Hd.
    rewrite IH; rewrite <- app_assoc; simpl; [reflexivity | exact Hnd].
Qed.

Lemma dict_of_items_wf (l : dict V) : dict_wf l -> dict_of_items l = l.
Proof. intros H. unfold dict_of_items. now rewrite dict_update_fresh. Qed.

End DictFacts.

(** ** [resolve_targets] *)

Section ResolveTargetsFacts.
Import Template PolicyDefinition.
Local Open Scope list_scope.
Context {Operation : Type}.
Implicit Types (nodes : dict (Node Operation)) (n : Node Operation).

Lemma have_types_cons x nodes :
  have_types (x :: nodes) -> types (snd x) <> [] /\ have_types nodes.
Proof.
  intros H. split.
  - destruct x as [name n]. apply (H name n). now left.
  - intros name n Hin. apply (H name n). now right.
Qed.

(** The code's test agrees with the matching rule on a node that has a
    type. *)
Lemma name_or_first_type_is_matches name n target :
  types n <> [] ->
  name_or_first_type_is name n target = Ok (target_matches target (name, n)).
Proof.
  intros Hty. unfold name_or_first_type_is, target_matches, first_type. simpl.
  rewrite (String.eqb_sym target name).
  destruct (String.eqb name target); simpl; [reflexivity |].
  destruct (types n) as [|t0 ts]; [congruence |]. simpl.
  now rewrite String.eqb_sym.
Qed.

Lemma target_matches_iff target name n :
  target_matches target (name, n) = true
  <-> target = name \/ hd_error (types n) = Some target.
Proof.
  unfold target_matches. simpl. rewrite orb_true_iff, String.eqb_eq.
  destruct (types n) as [|t0 ts]; simpl.
  - split; [intros [H | H]; [now left | discriminate]
           | intros [H | H]; [now left | discriminate]].
  - rewrite String.eqb_eq. split; (intros [H | H]; [now left | right]);
      congruence.
Qed.

(** The inner loop of [resolve_targets] for one target name. *)
Lemma resolve_targets_inner target nodes :
  have_types nodes ->
  forall acc,
    for_loop nodes
      (fun '(node_name, n) resolved_targets =>
         b <- name_or_first_type_is node_name n target ;;
         Ok (Continue (if b then dict_set node_name n resolved_targets
                       else resolved_targets)))
      acc
    = Ok (dict_update acc (filter (target_matches target) nodes)).
Proof.
  induction nodes as [|[name n] nodes IH]; intros Hty acc; simpl;
    [reflexivity |].
  apply have_types_cons in Hty. destruct Hty as [Hn Hty]. simpl in Hn.
  rewrite name_or_first_type_is_matches by exact Hn. simpl.
  rewrite IH by exact Hty.
  destruct (target_matches target (name, n)); reflexivity.
Qed.

Lemma resolve_targets_eq {T : Type} (targets : dict T) nodes :
  have_types nodes ->
  resolve_targets targets nodes
  = Ok (dict_of_items (resolved_writes (dict_keys targets) nodes)).
Proof.
  intros Hty. unfold resolve_targets, dict_of_items.
  assert (Hloop : forall target_names acc,
    for_loop target_names
      (fun target_name resolved_targets =>
         r <- for_loop nodes
                (fun '(node_name, n) resolved_targets =>
                   b <- name_or_first_type_is node_name n target_name ;;
                   Ok (Continue (if b then dict_set node_name n resolved_targets
                                 else resolved_targets)))
                resolved_targets ;;
         Ok (Continue r))
      acc
    = Ok (dict_update acc (resolved_writes target_names nodes))).
  { induction target_names as [|target target_names IH]; intros acc; simpl;
      [reflexivity |].
    rewrite resolve_targets_inner by exact Hty. simpl.
    rewrite IH. now rewrite dict_update_app. }
  destruct targets as [|t0 targets]; [reflexivity |].
  apply Hloop.
Qed.

Lemma In_resolved_writes target_names nodes name n :
  In (name, n) (resolved_writes target_names nodes)
  <-> In (name, n) nodes
      /\ exists target, In target target_names
                        /\ target_matches target (name, n) = true.
Proof.
  unfold resolved_writes. rewrite in_flat_map. split.
  - intros (target & Hin & Hf). apply filter_In in Hf. destruct Hf as [Hn Hm].
    eauto.
  - intros (Hn & target & Hin & Hm). exists target. split; [exact Hin |].
    now apply filter_In.
Qed.

(** Soundness of the result: every entry is a node of the document, under its
    template name, matched by some target. *)
Lemma resolve_targets_sound {T : Type} (targets : dict T) nodes name n :
  dict_get name (dict_of_items (resolved_writes (dict_keys targets) nodes))
  = Some n ->
  In (name, n) nodes
  /\ exists target, In target (dict_keys targets)
                    /\ target_matches target (name, n) = true.
Proof.
  unfold dict_of_items. rewrite dict_get_update. simpl.
  destruct (dict_get name (rev _)) as [v|] eqn:E; [| discriminate].
  intros [= ->]. apply dict_get_In, in_rev in E.
  now apply In_resolved_writes.
Qed.

Lemma resolve_targets_complete {T : Type} (targets : dict T) nodes name n target :
  dict_wf nodes ->
  In (name, n) nodes -> In target (dict_keys targets) ->
  target_matches target (name, n) = true ->
  dict_get name (dict_of_items (resolved_writes (dict_keys targets) nodes))
  = Some n.
Proof.
  intros Hwf Hin Ht Hm.
  assert (Hw : In (name, n) (resolved_writes (dict_keys targets) nodes))
    by (apply In_resolved_writes; eauto).
  unfold dict_of_items. rewrite dict_get_update. simpl.
  destruct (dict_get name (rev _)) as [v|] eqn:E.
  - apply dict_get_In, in_rev, In_resolved_writes in E.
    destruct E as [E _].
    apply (dict_wf_get _ _ _ Hwf) in E. apply (dict_wf_get _ _ _ Hwf) in Hin.
    congruence.
  - exfalso. apply dict_get_None in E. apply E.
    apply in_rev in Hw. apply (in_map fst) in Hw. exact Hw.
Qed.

(** C3. [resolve_targets] links a target name to a node instance exactly when
    the name is the instance's template name or the first entry of its type
    list; a type further down the list never makes a match. *)
Theorem resolve_targets_matches_name_or_first_type
  {T : Type} (targets : dict T) nodes :
  have_types nodes -> dict_wf nodes ->
  exists resolved,
    resolve_targets targets nodes = Ok resolved
    /\ (forall name n,
           dict_get name resolved = Some n
           <-> dict_get name nodes = Some n
               /\ exists target,
                   In target (dict_keys targets)
                   /\ (target = name \/ hd_error (types n) = Some target))
    /\ (forall target name n,
           In (name, n) nodes ->
           (name_or_first_type_is name n target = Ok true
            <-> target = name \/ hd_error (types n) = Some target))
    /\ (forall name n,
           In (name, n) nodes ->
           (forall target, In target (dict_keys targets) ->
                           target <> name
                           /\ hd_error (types n) <> Some target) ->
           dict_get name resolved = None).
Proof.
  intros Hty Hwf. eexists. split; [now apply resolve_targets_eq |].
  assert (Hiff : forall name n,
    dict_get name (dict_of_items (resolved_writes (dict_keys targets) nodes))
    = Some n
    <-> dict_get name nodes = Some n
        /\ exists target,
            In target (dict_keys targets)
            /\ (target = name \/ hd_error (types n) = Some target)).
  { intros name n. split.
    - intros H. apply resolve_targets_sound in H.
      destruct H as (Hin & target & Ht & Hm).
      split; [now apply dict_wf_get |].
      exists target. split; [exact Ht | now apply target_matches_iff].
    - intros (Hget & target & Ht & Hm).
      apply resolve_targets_complete with (target := target); auto.
      + now apply dict_get_In.
      + now apply target_matches_iff. }
  split; [exact Hiff |]. split.
  - intros target name n Hin.
    rewrite name_or_first_type_is_matches by (apply (Hty name n Hin)).
    rewrite <- target_matches_iff. split; [now intros [= ->] | now intros ->].
  - intros name n Hin Hno.
    destruct (dict_get name (dict_of_items _)) as [n'|] eqn:E; [| reflexivity].
    apply Hiff in E. destruct E as (Hget & target & Ht & Hm).
    apply (dict_wf_get _ _ _ Hwf) in Hin.
    assert (n' = n) as -> by congruence.
    destruct (Hno target Ht) as [H1 H2]. destruct Hm; congruence.
Qed.

End ResolveTargetsFacts.

(** An archive-style example: ["Compute"] is only an ancestor type of [web],
    ["db"] is a template name, ["Database"] a first type and ["cache"]
    matches nothing. *)
Lemma example_nodes_have_types : have_types example_nodes.
Proof.
  intros name n [[= <- <-] | [[= <- <-] | []]]; discriminate.
Defined.

Lemma example_nodes_wf : dict_wf example_nodes.
Proof.
  unfold dict_wf. simpl.
  constructor; [intros [H | []]; discriminate |].
  constructor; [intros [] | constructor].
Defined.

Lemma resolve_targets_matches_name_or_first_type_witness :
  exists resolved,
    PolicyDefinition.resolve_targets
      [("Compute", tt); ("Database", tt)] example_nodes = Ok resolved
    /\ (forall name n,
           dict_get name resolved = Some n
           <-> dict_get name example_nodes = Some n
               /\ exists target,
                   In target (dict_keys [("Compute", tt); ("Database", tt)])
                   /\ (target = name
                       \/ hd_error (Template.types n) = Some target))
    /\ (forall target name n,
           In (name, n) example_nodes ->
           (PolicyDefinition.name_or_first_type_is name n target = Ok true
            <-> target = name \/ hd_error (Template.types n) = Some target))
    /\ (forall name n,
           In (name, n) example_nodes ->
           (forall target,
               In target (dict_keys [("Compute", tt); ("Database", tt)]) ->
               target <> name
               /\ hd_error (Template.types n) <> Some target) ->
           dict_get name resolved = None).
Proof.
  exact (resolve_targets_matches_name_or_first_type
           [("Compute", tt); ("Database", tt)] example_nodes
           example_nodes_have_types example_nodes_wf).
Defined.

(** The same targets computed: only [db] is resolved. *)
Example resolve_targets_example :
  PolicyDefinition.resolve_targets
    [("Compute", tt); ("Database", tt)] example_nodes
  = Ok [("db", db)].
Proof. reflexivity. Qed.

(** ** [collect_trigger_target_nodes] *)

Section TargetNodesFacts.
Import Template PolicyDefinition.
Local Open Scope list_scope.
Context {Operation Entity : Type}.
Implicit Types (nodes : dict (Node Operation)) (n : Node Operation).

Lemma filter_keys_NoDup {V : Type} (p : string * V -> bool) (d : dict V) :
  dict_wf d -> dict_wf (filter p d).
Proof.
  unfold dict_wf, dict_keys. induction d as [|[k v] d IH]; simpl; [auto |].
  intros Hnd. inversion Hnd as [|? ? Hnotin Hnd']; subst.
  destruct (p (k, v)); simpl; [| auto].
  constructor; [| auto].
  intros Hin. apply Hnotin. apply in_map_iff in Hin.
  destruct Hin as (x & <- & Hx). apply filter_In in Hx.
  apply in_map. tauto.
Qed.

(** With a target filter: the loop stops at the first node that matches. *)
Lemma target_nodes_with_filter (target : string) nodes :
  have_types nodes ->
  for_loop nodes
    (fun '(node_name, n) targeted_nodes =>
       b <- name_or_first_type_is node_name n target ;;
       Ok (if b then Break (dict_set node_name n targeted_nodes)
           else Continue targeted_nodes))
    []
  = Ok (match find (target_matches target) nodes with
        | Some x => [x]
        | None => []
        end).
Proof.
  induction nodes as [|[name n] nodes IH]; intros Hty; simpl; [reflexivity |].
  apply have_types_cons in Hty. destruct Hty as [Hn Hty]. simpl in Hn.
  rewrite name_or_first_type_is_matches by exact Hn. simpl.
  destruct (target_matches target (name, n)); [reflexivity | now apply IH].
Qed.

(** Without one: the inner loop over the policy targets, for one node. *)
Lemma target_nodes_inner name n (policy_targets : dict Entity) :
  types n <> [] ->
  forall acc,
    for_loop policy_targets
      (fun '(policy_target_name, _) targeted_nodes =>
         t0 <- first_type n ;;
         Ok (Continue
               (if String.eqb policy_target_name name
                   || String.eqb policy_target_name t0
                then dict_set name n targeted_nodes
                else targeted_nodes)))
      acc
    = Ok (if matches_some_target policy_targets (name, n)
          then dict_set name n acc else acc).
Proof.
  intros Hty. unfold matches_some_target, first_type.
  destruct (types n) as [|t0 ts] eqn:Et; [congruence |].
  assert (Hm : forall pt, target_matches pt (name, n)
                          = String.eqb pt name || String.eqb pt t0).
  { intros pt. unfold target_matches. simpl. now rewrite Et. }
  induction policy_targets as [|[pt e] pts IH]; intros acc; [reflexivity |].
  cbn [for_loop dict_keys map fst existsb bind]. rewrite Hm.
  destruct (String.eqb pt name || String.eqb pt t0); cbn [orb].
  - rewrite IH. destruct (existsb _ _); [now rewrite dict_set_same | reflexivity].
  - apply IH.
Qed.

Lemma target_nodes_without_filter (policy_targets : dict Entity) nodes :
  have_types nodes ->
  forall acc,
    for_loop nodes
      (fun '(node_name, n) targeted_nodes =>
         r <- for_loop policy_targets
                (fun '(policy_target_name, _) targeted_nodes =>
                   t0 <- first_type n ;;
                   Ok (Continue
                         (if String.eqb policy_target_name node_name
                             || String.eqb policy_target_name t0
                          then dict_set node_name n targeted_nodes
                          else targeted_nodes)))
                targeted_nodes ;;
         Ok (Continue r))
      acc
    = Ok (dict_update acc (filter (matches_some_target policy_targets) nodes)).
Proof.
  induction nodes as [|[name n] nodes IH]; intros Hty acc; simpl;
    [reflexivity |].
  apply have_types_cons in Hty. destruct Hty as [Hn Hty]. simpl in Hn.
  rewrite (target_nodes_inner name n policy_targets Hn acc).
  simpl. rewrite IH by exact Hty.
  destruct (matches_some_target policy_targets (name, n)); reflexivity.
Qed.

(** C4. With a target filter the candidate set is the single first node (in
    node-map order) whose name or first type is the filter's name; without
    one, when the policy has targets, it is every node whose name or first
    type matches some policy target; otherwise it is every node. *)
Theorem collect_trigger_target_nodes_cases
  (target_filter : option (string * Entity)) nodes
  (policy_targets : dict Entity) :
  have_types nodes -> dict_wf nodes ->
  collect_trigger_target_nodes target_filter nodes policy_targets
  = Ok (match target_filter with
        | Some tf =>
            match find (target_matches (fst tf)) nodes with
            | Some x => [x]
            | None => []
            end
        | None =>
            match policy_targets with
            | _ :: _ => filter (matches_some_target policy_targets) nodes
            | [] => nodes
            end
        end).
Proof.
  intros Hty Hwf. unfold collect_trigger_target_nodes.
  destruct target_filter as [tf|].
  - now apply target_nodes_with_filter.
  - destruct policy_targets as [|pt pts]; [reflexivity |].
    rewrite target_nodes_without_filter by exact Hty.
    f_equal. apply dict_update_fresh. simpl.
    now apply filter_keys_NoDup.
Qed.

End TargetNodesFacts.

Lemma collect_trigger_target_nodes_cases_witness :
  PolicyDefinition.collect_trigger_target_nodes
    (Some ("Database", tt)) example_nodes [("web", tt)]
  = Ok [("db", db)]
  /\ PolicyDefinition.collect_trigger_target_nodes
       None example_nodes [("Compute", tt); ("WebServer", tt); ("web", tt)]
     = Ok [("web", web)]
  /\ PolicyDefinition.collect_trigger_target_nodes
       (Entity := unit) None example_nodes []
     = Ok example_nodes.
Proof.
  split; [| split].
  - exact (collect_trigger_target_nodes_cases
             (Some ("Database", tt)) example_nodes [("web", tt)]
             example_nodes_have_types example_nodes_wf).
  - exact (collect_trigger_target_nodes_cases
             None example_nodes
             [("Compute", tt); ("WebServer", tt); ("web", tt)]
             example_nodes_have_types example_nodes_wf).
  - exact (collect_trigger_target_nodes_cases
             (Entity := unit) None example_nodes []
             example_nodes_have_types example_nodes_wf).
Defined.

(** ** [collect_trigger_action_from_interfaces] *)

Section ActionFacts.
Import Template PolicyDefinition.
Local Open Scope list_scope.
Context {Operation Typ : Type}.
Context (eval : Value Typ -> string -> result pyval).
Context (inputs : option (dict pyval)).

Lemma record_match_never_breaks : never_breaks (@record_match Operation Typ eval inputs).
Proof.
  intros m st st'. unfold record_match.
  destruct (extra_inputs eval inputs); simpl; discriminate.
Qed.

(** The innermost loop finds at most the first matching operation of the
    interface. *)
Lemma operations_loop (name : string) (interface_name : string)
  (interface : Interface Operation) st :
  for_loop (operations interface)
    (fun '(operation_name, operation) st =>
       if String.eqb (interface_name ++ "." ++ operation_name)%string name
       then
         e <- extra_inputs eval inputs ;;
         Ok (Break (Some (interface_name, operation_name, operation, e),
                    S (snd st)))
       else Ok (Continue st))
    st
  = for_loop (interface_match name (interface_name, interface)) (@record_match Operation Typ eval inputs) st.
Proof.
  unfold interface_match. simpl.
  induction (operations interface) as [|[o op] ops IH]; simpl; [reflexivity |].
  destruct (String.eqb _ name); simpl.
  - unfold record_match. destruct (extra_inputs eval inputs); reflexivity.
  - exact IH.
Qed.

Lemma interfaces_loop (name : string) (n : Node Operation) st :
  for_loop (interfaces n)
    (fun '(interface_name, interface) st =>
       st <- for_loop (operations interface)
               (fun '(operation_name, operation) st =>
                  if String.eqb (interface_name ++ "." ++ operation_name)%string
                                name
                  then
                    e <- extra_inputs eval inputs ;;
                    Ok (Break (Some (interface_name, operation_name,
                                     operation, e),
                               S (snd st)))
                  else Ok (Continue st))
               st ;;
       Ok (Continue st))
    st
  = for_loop (flat_map (interface_match name) (interfaces n)) (@record_match Operation Typ eval inputs) st.
Proof.
  apply for_loop_flat_map; [exact record_match_never_breaks |].
  intros [interface_name interface] s _. now rewrite operations_loop.
Qed.

Lemma nodes_loop (name : string) (nodes : dict (Node Operation)) st :
  for_loop nodes
    (fun '(_, target_node) st =>
       st <- for_loop (interfaces target_node)
               (fun '(interface_name, interface) st =>
                  st <- for_loop (operations interface)
                          (fun '(operation_name, operation) st =>
                             if String.eqb
                                  (interface_name ++ "." ++ operation_name)%string
                                  name
                             then
                               e <- extra_inputs eval inputs ;;
                               Ok (Break
                                     (Some (interface_name, operation_name,
                                            operation, e),
                                      S (snd st)))
                             else Ok (Continue st))
                          st ;;
                  Ok (Continue st))
               st ;;
       Ok (Continue st))
    st
  = for_loop (matching_operations name nodes) (@record_match Operation Typ eval inputs) st.
Proof.
  unfold matching_operations.
  apply for_loop_flat_map; [exact record_match_never_breaks |].
  intros [node_name target_node] s _. now rewrite interfaces_loop.
Qed.

Lemma last_cons_default {X : Type} (l : list X) (x d d' : X) :
  last (x :: l) d = last (x :: l) d'.
Proof.
  revert x. induction l as [|y l IH]; intros x; [reflexivity |].
  change (last (y :: l) d = last (y :: l) d'). apply IH.
Qed.

(** Recording a sequence of matches keeps the last one and counts them all. *)
Lemma record_matches m ms : forall st,
  for_loop (m :: ms) (@record_match Operation Typ eval inputs) st
  = (e <- extra_inputs eval inputs ;;
     Ok (Some (last ms m, e), S (List.length ms) + snd st)).
Proof.
  revert m. induction ms as [|m' ms IH]; intros m st.
  - simpl. unfold record_match.
    destruct (extra_inputs eval inputs); reflexivity.
  - change (for_loop (m :: m' :: ms) (@record_match Operation Typ eval inputs) st)
      with (match @record_match Operation Typ eval inputs m st with
            | Raise e => Raise e
            | Ok (Break s') => Ok s'
            | Ok (Continue s') => for_loop (m' :: ms) (@record_match Operation Typ eval inputs) s'
            end).
    unfold record_match at 1.
    destruct (extra_inputs eval inputs) as [e|err] eqn:E; simpl bind; cbv iota.
    + rewrite IH. simpl.
      assert (Hlast : last ms m' = match ms with [] => m' | _ :: _ => last ms m end)
        by (destruct ms as [|x ms]; [reflexivity | apply last_cons_default]).
      rewrite Hlast. do 2 f_equal. lia.
    + reflexivity.
Qed.

Lemma interface_match_exact (name : string) (i : string * Interface Operation)
  (x : string * string * Operation) :
  In x (interface_match name i) ->
  (fst (fst x) ++ "." ++ snd (fst x))%string = name
  /\ fst (fst x) = fst i
  /\ In (snd (fst x), snd x) (operations (snd i)).
Proof.
  unfold interface_match.
  destruct (find _ _) as [[o op]|] eqn:E; simpl; [| tauto].
  intros [<- | []]. simpl. apply find_some in E. destruct E as [Hin Heq].
  simpl in Heq. apply String.eqb_eq in Heq. auto.
Qed.

(** Zero matches means that no operation of no interface of no candidate
    carries the dotted name. *)
Lemma matching_operations_nil_iff name (nodes : dict (Node Operation)) :
  matching_operations name nodes = []
  <-> forall node_name n i interface o op,
      In (node_name, n) nodes -> In (i, interface) (interfaces n) ->
      In (o, op) (operations interface) ->
      (i ++ "." ++ o)%string <> name.
Proof.
  unfold matching_operations. split.
  - intros Hnil node_name n i interface o op Hn Hi Ho Heq.
    assert (Hm : interface_match name (i, interface) <> []).
    { unfold interface_match. simpl.
      destruct (find _ _) eqn:E; [discriminate |].
      apply (find_none _ _ E) in Ho. simpl in Ho.
      apply String.eqb_neq in Ho. contradiction. }
    destruct (interface_match name (i, interface)) as [|x xs] eqn:E;
      [congruence |].
    assert (Hin : In x (flat_map (fun y => flat_map (interface_match name)
                                             (interfaces (snd y))) nodes)).
    { apply in_flat_map. exists (node_name, n). split; [exact Hn |].
      apply in_flat_map. exists (i, interface). split; [exact Hi |].
      rewrite E. now left. }
    rewrite Hnil in Hin. exact Hin.
  - intros Hno.
    destruct (flat_map _ nodes) as [|x xs] eqn:E; [reflexivity |]. exfalso.
    assert (Hin : In x (flat_map (fun y => flat_map (interface_match name)
                                             (interfaces (snd y))) nodes))
      by (rewrite E; now left).
    apply in_flat_map in Hin. destruct Hin as ([node_name n] & Hn & Hin).
    apply in_flat_map in Hin. destruct Hin as ([i interface] & Hi & Hin).
    apply interface_match_exact in Hin. destruct Hin as (Heq & Hfst & Hop).
    simpl in Hfst, Hop, Hi. rewrite Hfst in Heq.
    exact (Hno node_name n i interface _ _ Hn Hi Hop Heq).
Qed.

Lemma no_interface_message_names name :
  names (no_interface_message name) name.
Proof.
  unfold no_interface_message. apply names_prefix, names_suffix, names_refl.
Qed.

(** C1 (as the code has it). [collect_trigger_action_from_interfaces] scans
    every interface and operation of every candidate node for the exact name
    [<interface>.<operation>].  With no match it fails with a [ParseError]
    whose message names the dotted name.  With one or more matches it raises
    no diagnostic of its own and returns the LAST match in iteration order
    (with the evaluated inputs of the activity). *)
Theorem collect_trigger_action_last_match
  (self : t) (nodes : dict (Node Operation)) (name : string)
  (action : Activity) :
  collect_trigger_action_from_interfaces eval self nodes name action inputs
  = match matching_operations name nodes with
    | [] => Raise (ParseError (no_interface_message name) (loc self))
    | m :: ms =>
        e <- extra_inputs eval inputs ;;
        Ok (Some (last ms m, e))
    end
  /\ names (no_interface_message name) name
  /\ (forall i o op,
         In (i, o, op) (matching_operations name nodes) ->
         (i ++ "." ++ o)%string = name).
Proof.
  split; [| split].
  - unfold collect_trigger_action_from_interfaces.
    rewrite nodes_loop.
    destruct (matching_operations name nodes) as [|m ms]; [reflexivity |].
    rewrite record_matches.
    destruct (extra_inputs eval inputs); reflexivity.
  - apply no_interface_message_names.
  - intros i o op Hin. unfold matching_operations in Hin.
    apply in_flat_map in Hin. destruct Hin as (x & _ & Hin).
    apply in_flat_map in Hin. destruct Hin as (y & _ & Hin).
    apply interface_match_exact in Hin. tauto.
Qed.

End ActionFacts.

(** Both example nodes expose [Standard.create]: the action collected is the
    one of [db], the last candidate, although [web] comes first. *)
Lemma collect_trigger_action_not_first_match :
  matching_operations "Standard.create" example_nodes
  = [("Standard", "create", "web_create.yml");
     ("Standard", "create", "db_create.yml")]
  /\ PolicyDefinition.collect_trigger_action_from_interfaces
       eval_literal example_policy example_nodes "Standard.create"
       [("call_operation", PolicyDefinition.CallShort "Standard.create")]
       (Some [])
     = Ok (Some ("Standard", "create", "db_create.yml", []))
  /\ PolicyDefinition.collect_trigger_action_from_interfaces
       eval_literal example_policy example_nodes "Standard.create"
       [("call_operation", PolicyDefinition.CallShort "Standard.create")]
       (Some [])
     <> Ok (Some ("Standard", "create", "web_create.yml", [])).
Proof.
  split; [reflexivity |]. split; [reflexivity | discriminate].
Qed.

(** ** Target and trigger collection: explicit assignments replace inherited
       definitions *)

Section MoreDictFacts.
Local Open Scope list_scope.
Context {V : Type}.
Implicit Types (d l : dict V) (k : string) (v : V).

Lemma dict_keys_set k v d :
  dict_keys (dict_set k v d)
  = if dict_mem k d then dict_keys d else dict_keys d ++ [k].
Proof.
  unfold dict_mem. induction d as [|[k0 v0] d IH]; simpl; [reflexivity |].
  destruct (String.eqb_spec k k0) as [-> | Hne]; simpl; [reflexivity |].
  rewrite IH. now destruct (dict_get k d).
Qed.

Lemma dict_set_wf k v d : dict_wf d -> dict_wf (dict_set k v d).
Proof.
  unfold dict_wf. rewrite dict_keys_set. intros Hwf.
  unfold dict_mem. destruct (dict_get k d) eqn:E; [exact Hwf |].
  apply dict_get_None in E.
  rewrite <- (rev_involutive (dict_keys d ++ [k])). apply NoDup_rev.
  rewrite rev_unit. constructor; [now rewrite <- in_rev | now apply NoDup_rev].
Qed.

Lemma dict_update_wf l : forall d, dict_wf d -> dict_wf (dict_update d l).
Proof.
  induction l as [|[k v] l IH]; intros d Hwf; [exact Hwf |].
  apply (IH (dict_set k v d)). now apply dict_set_wf.
Qed.






Lemma dict_keys_pop_incl k' d x :
  In x (dict_keys (dict_pop k' d)) -> In x (dict_keys d).
Proof.
  induction d as [|[k0 v0] d IH]; simpl; [tauto |].
  destruct (String.eqb k' k0); simpl; [tauto |].
  intros [H | H]; auto.
Qed.

Lemma dict_pop_wf k' d : dict_wf d -> dict_wf (dict_pop k' d).
Proof.
  unfold dict_wf. induction d as [|[k0 v0] d IH]; simpl; [auto |].
  intros Hnd. inversion Hnd as [|? ? Hnotin Hnd']; subst.
  destruct (String.eqb k' k0); simpl; [exact Hnd' |].
  constructor; [| auto].
  intros Hin. apply Hnotin. eapply dict_keys_pop_incl, Hin.
Qed.


Lemma dict_pops_wf (ks : list string) : forall d,
  dict_wf d ->
  dict_wf (fold_left (fun d duplicate => dict_pop duplicate d) ks d).
Proof.
  induction ks as [|k0 ks IH]; intros d Hwf; simpl; [exact Hwf |].
  apply IH. now apply dict_pop_wf.
Qed.

End MoreDictFacts.

Section MapResultFacts.
Local Open Scope list_scope.
Context {A B : Type}.


(** A successful comprehension has one result per element, in order. *)
Lemma map_result_Ok (f : A -> result B) (xs : list A) (ys : list B) :
  map_result f xs = Ok ys -> Forall2 (fun x y => f x = Ok y) xs ys.
Proof.
  revert ys. induction xs as [|x xs IH]; intros ys; simpl.
  - intros [= <-]. constructor.
  - destruct (f x) as [y|e] eqn:E; simpl; [| discriminate].
    destruct (map_result f xs) as [ys'|e]; simpl; [| discriminate].
    intros [= <-]. constructor; auto.
Qed.

End MapResultFacts.

Section MergeFacts.
Import PolicyDefinition.
Local Open Scope list_scope.
Context {Entity : Type}.
Context (resolve_type : Reference -> result PolicyType).
Context (resolve_reference : Reference -> result Entity).




Lemma merge_triggers_wf (inherited assignments : dict TriggerDefinition) :
  dict_wf inherited -> dict_wf (merge_triggers inherited assignments).
Proof.
  intros Hwf. unfold merge_triggers. now apply dict_update_wf, dict_pops_wf.
Qed.



End MergeFacts.

(** ** The target filter of a trigger *)

Section TriggerFilterFacts.
Import Template PolicyDefinition.
Local Open Scope list_scope.
Context {Operation Entity Typ : Type}.
Context (resolve_type : Reference -> result PolicyType).
Context (resolve_reference : Reference -> result Entity).
Context (collect_definitions_triggers :
           PolicyType -> result (dict TriggerDefinition)).
Context (eval : Value Typ -> string -> result pyval).

Lemma in_keys_iff {V : Type} (k : string) (d : dict V) :
  in_keys k d = true <-> In k (dict_keys d).
Proof.
  unfold in_keys. rewrite existsb_exists. split.
  - intros (x & Hin & Heq). apply String.eqb_eq in Heq. now subst.
  - intros Hin. exists k. split; [exact Hin | apply String.eqb_refl].
Qed.

(** A loop one of whose iterations must raise, and which never breaks,
    raises. *)
Lemma for_loop_raises {A S : Type} (body : A -> S -> result (flow S))
  (xs : list A) (x : A) :
  In x xs ->
  (forall s, exists e, body x s = Raise e) ->
  never_breaks body ->
  forall s, exists e, for_loop xs body s = Raise e.
Proof.
  intros Hin Hx Hnb. induction xs as [|y xs IH]; [destruct Hin |].
  intros s. simpl. destruct Hin as [-> | Hin].
  - destruct (Hx s) as [e ->]. eauto.
  - destruct (body y s) as [[s'|s']|e] eqn:E; [auto | | eauto].
    now apply Hnb in E.
Qed.

Lemma collect_trigger_rejects (self : t) (policy_targets : dict Entity)
  (nodes : dict (Node Operation)) (name : string)
  (definition : TriggerDefinition) (filter : EventFilterDefinition)
  (target_node : Reference) (entity : Entity) :
  target_filter definition = Some filter ->
  node filter = Some target_node ->
  resolve_reference target_node = Ok entity ->
  policy_targets <> [] ->
  ~ In (data target_node) (dict_keys policy_targets) ->
  collect_trigger (Operation := Operation) resolve_reference eval
    self policy_targets nodes name definition
  = Raise (ParseError (not_in_targets_message (data target_node)) (loc self)).
Proof.
  intros Hf Hn Hr Hne Hnotin. unfold collect_trigger.
  rewrite Hf, Hn, Hr. simpl bind.
  destruct policy_targets as [|pt pts]; [congruence |].
  cbn [fst].
  destruct (in_keys (data target_node) (pt :: pts)) eqn:E.
  - apply in_keys_iff in E. contradiction.
  - reflexivity.
Qed.

(** C5 (as the code has it). For a trigger definition with a
    [target_filter.node] reference: when the policy has at least one collected
    target and the referenced name is not among the collected target names,
    the trigger is rejected with a [ParseError] at the policy's location whose
    message names the node, and [collect_triggers] fails for any policy that
    has such a trigger among its merged definitions. *)
Theorem foreign_target_filter_is_rejected
  (self : t) (policy_targets : dict Entity) (nodes : dict (Node Operation))
  (name : string) (definition : TriggerDefinition)
  (filter : EventFilterDefinition) (target_node : Reference) :
  target_filter definition = Some filter ->
  node filter = Some target_node ->
  policy_targets <> [] ->
  ~ In (data target_node) (dict_keys policy_targets) ->
  (forall entity,
      resolve_reference target_node = Ok entity ->
      collect_trigger (Operation := Operation) resolve_reference eval
        self policy_targets nodes name definition
      = Raise (ParseError (not_in_targets_message (data target_node))
                          (loc self)))
  /\ names (not_in_targets_message (data target_node)) (data target_node)
  /\ (forall typ inherited,
         resolve_type (type self) = Ok typ ->
         collect_definitions_triggers typ = Ok inherited ->
         In (name, definition)
            (merge_triggers inherited
               (match triggers self with Some d => d | None => [] end)) ->
         exists e,
           collect_triggers resolve_type resolve_reference
             collect_definitions_triggers eval self policy_targets nodes
           = Raise e).
Proof.
  intros Hf Hn Hne Hnotin. split; [| split].
  - intros entity Hr. now apply collect_trigger_rejects with (filter := filter) (entity := entity).
  - unfold not_in_targets_message. apply names_prefix, names_suffix, names_refl.
  - intros typ inherited Hty Hinh Hin. unfold collect_triggers.
    rewrite Hty. cbn [bind]. rewrite Hinh. cbn [bind].
    apply for_loop_raises with (x := (name, definition)); [exact Hin | |].
    + intros s.
      destruct (resolve_reference target_node) as [entity|e] eqn:Hr.
      * rewrite (collect_trigger_rejects self policy_targets nodes name
                   definition filter target_node entity Hf Hn Hr Hne Hnotin).
        simpl. eauto.
      * unfold collect_trigger. rewrite Hf, Hn, Hr. simpl. eauto.
    + intros [y dy] s s'.
      destruct (collect_trigger _ _ _ _ _ _ _); simpl; discriminate.
Qed.

End TriggerFilterFacts.

(** [targeted_policy] has the single target [db]; its trigger filters on
    [web]. *)
Lemma foreign_target_filter_is_rejected_witness :
  (forall entity,
      example_resolve_reference (mkReference "web" target_paths) = Ok entity ->
      PolicyDefinition.collect_trigger example_resolve_reference eval_literal
        targeted_policy [("db", mkReference "db" target_paths)] example_nodes
        "scale" explicit_scale
      = Raise (ParseError (PolicyDefinition.not_in_targets_message "web")
                          (mkLoc "service.yaml" 20 3)))
  /\ names (PolicyDefinition.not_in_targets_message "web") "web"
  /\ (forall typ inherited,
         example_resolve_type (PolicyDefinition.type targeted_policy) = Ok typ ->
         example_inherited_triggers typ = Ok inherited ->
         In ("scale", explicit_scale)
            (PolicyDefinition.merge_triggers inherited
               [("scale", explicit_scale)]) ->
         exists e,
           PolicyDefinition.collect_triggers example_resolve_type
             example_resolve_reference example_inherited_triggers eval_literal
             targeted_policy [("db", mkReference "db" target_paths)]
             example_nodes
           = Raise e).
Proof.
  apply (foreign_target_filter_is_rejected
           example_resolve_type example_resolve_reference
           example_inherited_triggers eval_literal
           targeted_policy [("db", mkReference "db" target_paths)]
           example_nodes "scale" explicit_scale
           (PolicyDefinition.mkEventFilter
              (Some (mkReference "web" target_paths)))
           (mkReference "web" target_paths) eq_refl eq_refl).
  - discriminate.
  - intros [H | []]. discriminate.
Defined.

(** The same trigger in a policy without targets: the filter's node is not
    one of the policy's targets (there are none), and the policy's triggers
    are collected without any error. *)
Lemma foreign_target_filter_accepted_without_targets :
  PolicyDefinition.collect_targets
    example_resolve_type example_resolve_reference untargeted_policy
  = Ok []
  /\ PolicyDefinition.in_keys "web" (@nil (string * Reference)) = false
  /\ PolicyDefinition.collect_triggers example_resolve_type
       example_resolve_reference example_inherited_triggers eval_literal
       untargeted_policy [] example_nodes
     = Ok [("scale",
            PolicyDefinition.mkTrigger "scale" (Some (PStr "overload"))
              (Some ("web", web)) None
              [("Standard", "delete", "web_delete.yml", [])])].
Proof. repeat split. Qed.

(** ** [get_template] *)

Section GetTemplateFacts.
Import Template PolicyDefinition.
Context {Operation Entity Typ : Type}.
Context (resolve_type : Reference -> result PolicyType).
Context (resolve_reference : Reference -> result Entity).
Context (collect_definitions_triggers :
           PolicyType -> result (dict TriggerDefinition)).
Context (eval : Value Typ -> string -> result pyval).
Context (collect_properties : t -> result (dict (Value Typ))).
Context (collect_types : t -> result (list string)).

(** Building the policy fails as soon as collecting its triggers (against the
    targets the policy collects) fails: no [Policy] object comes out. *)
Lemma get_template_fails_with_triggers (self : t) (name : string)
  (nodes : dict (Node Operation)) :
  (forall targets,
      collect_targets resolve_type resolve_reference self = Ok targets ->
      exists e,
        collect_triggers resolve_type resolve_reference
          collect_definitions_triggers eval self targets nodes
        = Raise e) ->
  exists e,
    get_template resolve_type resolve_reference collect_definitions_triggers
      eval collect_properties collect_types self name nodes
    = Raise e.
Proof.
  intros H. unfold get_template.
  destruct (collect_targets resolve_type resolve_reference self)
    as [targets|e]; simpl; [| eauto].
  destruct (collect_properties self); simpl; [| eauto].
  destruct (collect_types self); simpl; [| eauto].
  destruct (resolve_targets targets nodes); simpl; [| eauto].
  destruct (H targets eq_refl) as [e ->]. simpl. eauto.
Qed.

End GetTemplateFacts.

(* ================================================================== *)
(** * Part III. Further properties of the code *)
(* ================================================================== *)

(** ** [resolve_targets]: when it raises *)

Section ResolveTargetsErrors.
Import Template PolicyDefinition.
Local Open Scope list_scope.
Context {Operation : Type}.
Implicit Types (nodes : dict (Node Operation)) (n : Node Operation).

Lemma resolve_targets_inner_total target nodes : forall acc,
  for_loop nodes
    (fun '(node_name, n) resolved_targets =>
       b <- name_or_first_type_is node_name n target ;;
       Ok (Continue (if b then dict_set node_name n resolved_targets
                     else resolved_targets)))
    acc
  = if existsb (untyped_miss target) nodes then Raise IndexError
    else Ok (dict_update acc (filter (target_matches target) nodes)).
Proof.
  induction nodes as [|[name n] nodes IH]; intros acc; [reflexivity |].
  cbn [for_loop existsb filter].
  unfold name_or_first_type_is, untyped_miss, target_matches, first_type.
  cbn [fst snd]. rewrite (String.eqb_sym target name).
  destruct (String.eqb name target); cbn [bind orb negb].
  - rewrite IH. destruct (types n); cbn [orb];
      destruct (existsb _ nodes); reflexivity.
  - destruct (types n) as [|t0 ts]; cbn [bind orb]; [reflexivity |].
    rewrite IH, (String.eqb_sym target t0).
    destruct (String.eqb t0 target); destruct (existsb _ nodes); reflexivity.
Qed.

(** [resolve_targets] in closed form, for every input. *)
Lemma resolve_targets_total {T : Type} (targets : dict T) nodes :
  resolve_targets targets nodes
  = if hits_untyped_node (dict_keys targets) nodes then Raise IndexError
    else Ok (dict_of_items (resolved_writes (dict_keys targets) nodes)).
Proof.
  unfold resolve_targets, dict_of_items, hits_untyped_node.
  assert (Hloop : forall target_names acc,
    for_loop target_names
      (fun target_name resolved_targets =>
         r <- for_loop nodes
                (fun '(node_name, n) resolved_targets =>
                   b <- name_or_first_type_is node_name n target_name ;;
                   Ok (Continue (if b then dict_set node_name n resolved_targets
                                 else resolved_targets)))
                resolved_targets ;;
         Ok (Continue r))
      acc
    = if existsb (fun target => existsb (untyped_miss target) nodes) target_names
      then Raise IndexError
      else Ok (dict_update acc (resolved_writes target_names nodes))).
  { induction target_names as [|target target_names IH]; intros acc;
      [reflexivity |].
    cbn [for_loop existsb]. rewrite resolve_targets_inner_total.
    destruct (existsb (untyped_miss target) nodes); cbn [bind orb];
      [reflexivity |].
    rewrite IH. unfold resolved_writes. cbn [flat_map].
    now rewrite dict_update_app. }
  destruct targets as [|t0 targets]; [reflexivity |].
  apply Hloop.
Qed.

Lemma hits_untyped_node_iff (target_names : list string) nodes :
  hits_untyped_node target_names nodes = true
  <-> exists target name n,
      In target target_names /\ In (name, n) nodes
      /\ types n = [] /\ name <> target.
Proof.
  unfold hits_untyped_node. rewrite existsb_exists. split.
  - intros (target & Ht & Hex). apply existsb_exists in Hex.
    destruct Hex as ([name n] & Hin & Hm). unfold untyped_miss in Hm.
    simpl in Hm. destruct (types n) eqn:E; [| discriminate].
    exists target, name, n. repeat split; auto.
    intros ->. now rewrite String.eqb_refl in Hm.
  - intros (target & name & n & Ht & Hin & Hty & Hne).
    exists target. split; [exact Ht |]. apply existsb_exists.
    exists (name, n). split; [exact Hin |]. unfold untyped_miss. simpl.
    rewrite Hty. now destruct (String.eqb_spec name target).
Qed.

(** X1. [resolve_targets] raises exactly when some target name meets a node
    that has no type and another name than the target, and what it raises
    then is [IndexError] (from [node.types[0]]); otherwise it returns the
    writes of the matching nodes. *)
Theorem resolve_targets_closed_form {T : Type} (targets : dict T) nodes :
  resolve_targets targets nodes
  = (if hits_untyped_node (dict_keys targets) nodes then Raise IndexError
     else Ok (dict_of_items (resolved_writes (dict_keys targets) nodes)))
  /\ (hits_untyped_node (dict_keys targets) nodes = true
      <-> exists target name n,
          In target (dict_keys targets) /\ In (name, n) nodes
          /\ types n = [] /\ name <> target).
Proof.
  split; [apply resolve_targets_total | apply hits_untyped_node_iff].
Qed.

End ResolveTargetsErrors.

(** ** The candidates of a trigger and the targets of its policy *)

Section CandidatesFacts.
Import Template PolicyDefinition.
Local Open Scope list_scope.
Context {Operation Entity : Type}.
Implicit Types (nodes : dict (Node Operation)) (n : Node Operation).

Lemma matches_some_target_iff (policy_targets : dict Entity)
  (x : string * Node Operation) :
  matches_some_target policy_targets x = true
  <-> exists target, In target (dict_keys policy_targets)
                     /\ target_matches target x = true.
Proof. unfold matches_some_target. apply existsb_exists. Qed.

(** X2. Without a target filter, the candidate nodes of a trigger are the
    policy's resolved targets: both maps hold the same node under every
    name (they only differ in order). *)
Theorem candidates_are_resolved_targets
  (policy_targets : dict Entity) nodes :
  have_types nodes -> dict_wf nodes -> policy_targets <> [] ->
  exists resolved candidates,
    resolve_targets policy_targets nodes = Ok resolved
    /\ collect_trigger_target_nodes None nodes policy_targets = Ok candidates
    /\ forall name, dict_get name resolved = dict_get name candidates.
Proof.
  intros Hty Hwf Hne.
  exists (dict_of_items (resolved_writes (dict_keys policy_targets) nodes)),
         (filter (matches_some_target policy_targets) nodes).
  split; [now apply resolve_targets_eq |]. split.
  - unfold collect_trigger_target_nodes.
    destruct policy_targets as [|pt pts]; [congruence |].
    rewrite target_nodes_without_filter by exact Hty.
    f_equal. apply dict_update_fresh. now apply filter_keys_NoDup.
  - intros name.
    assert (Hfw : dict_wf (filter (matches_some_target policy_targets) nodes))
      by now apply filter_keys_NoDup.
    destruct (dict_get name (dict_of_items _)) as [n|] eqn:E.
    + apply resolve_targets_sound in E. destruct E as (Hin & Hm).
      symmetry. apply dict_wf_get; [exact Hfw |].
      apply filter_In. split; [exact Hin | now apply matches_some_target_iff].
    + destruct (dict_get name (filter _ nodes)) as [n|] eqn:E'; [| reflexivity].
      apply dict_get_In, filter_In in E'. destruct E' as [Hin Hm].
      apply matches_some_target_iff in Hm. destruct Hm as (target & Ht & Hm).
      rewrite (resolve_targets_complete policy_targets nodes name n target
                 Hwf Hin Ht Hm) in E.
      discriminate.
Qed.

(** X3. The node a trigger's [target_filter] resolves to is the one
    candidate node its actions are looked up in: [resolve_event_filter] gives
    the first (and only) entry of [collect_trigger_target_nodes], and fails
    when that fails. *)
Theorem resolve_event_filter_is_candidate
  (tf : string * Entity) nodes (policy_targets : dict Entity) :
  resolve_event_filter (Some tf) nodes
  = (candidates <- collect_trigger_target_nodes (Some tf) nodes policy_targets ;;
     Ok (hd_error candidates)).
Proof.
  unfold resolve_event_filter, collect_trigger_target_nodes.
  induction nodes as [|[name n] nodes IH]; [reflexivity |].
  cbn [for_loop].
  destruct (name_or_first_type_is name n (fst tf)) as [[|]|e]; cbn [bind];
    [reflexivity | exact IH | reflexivity].
Qed.

End CandidatesFacts.

Lemma candidates_are_resolved_targets_witness :
  exists resolved candidates,
    PolicyDefinition.resolve_targets
      [("Database", tt); ("web", tt); ("WebServer", tt)] example_nodes
    = Ok resolved
    /\ PolicyDefinition.collect_trigger_target_nodes None example_nodes
         [("Database", tt); ("web", tt); ("WebServer", tt)]
       = Ok candidates
    /\ forall name, dict_get name resolved = dict_get name candidates.
Proof.
  apply (candidates_are_resolved_targets
           [("Database", tt); ("web", tt); ("WebServer", tt)] example_nodes
           example_nodes_have_types example_nodes_wf).
  discriminate.
Defined.

(** The two maps of the example differ in order. *)
Example candidates_order_example :
  PolicyDefinition.resolve_targets
    [("Database", tt); ("web", tt); ("WebServer", tt)] example_nodes
  = Ok [("db", db); ("web", web)]
  /\ PolicyDefinition.collect_trigger_target_nodes None example_nodes
       [("Database", tt); ("web", tt); ("WebServer", tt)]
     = Ok [("web", web); ("db", db)].
Proof. split; reflexivity. Qed.

(** ** Targets of the policy type, and the order of the merged triggers *)

Section InheritedFacts.
Import PolicyDefinition.
Local Open Scope list_scope.
Context {Entity : Type}.
Context (resolve_type : Reference -> result PolicyType).
Context (resolve_reference : Reference -> result Entity).


Lemma filter_all {A : Type} (p : A -> bool) (l : list A) :
  (forall x, In x l -> p x = true) -> filter p l = l.
Proof.
  intros H. apply forallb_filter_id, forallb_forall, H.
Qed.

Lemma dict_pop_filter {V : Type} (k : string) (d : dict V) :
  dict_wf d ->
  dict_pop k d = filter (fun kv => negb (String.eqb k (fst kv))) d.
Proof.
  unfold dict_wf. induction d as [|[k0 v0] d IH]; intros Hwf; [reflexivity |].
  inversion Hwf as [|? ? Hnotin Hwf']; subst. simpl.
  destruct (String.eqb_spec k k0) as [-> | Hne]; simpl.
  - symmetry. apply filter_all. intros [k1 v1] Hin. simpl.
    destruct (String.eqb_spec k0 k1) as [-> | _]; [| reflexivity].
    exfalso. apply Hnotin. apply (in_map fst) in Hin. exact Hin.
  - now rewrite IH.
Qed.

Lemma dict_pops_filter {V : Type} (ks : list string) : forall d : dict V,
  dict_wf d ->
  fold_left (fun d duplicate => dict_pop duplicate d) ks d
  = filter (fun kv => negb (existsb (fun k => String.eqb k (fst kv)) ks)) d.
Proof.
  induction ks as [|k ks IH]; intros d Hwf; simpl.
  - symmetry. now apply filter_all.
  - rewrite IH by now apply dict_pop_wf.
    rewrite dict_pop_filter by exact Hwf.
    induction d as [|[k0 v0] d IHd]; [reflexivity |]. simpl.
    assert (Hwf' : dict_wf d) by (now inversion Hwf).
    destruct (String.eqb k k0); simpl; rewrite IHd by exact Hwf';
      reflexivity.
Qed.

(** X5. The merged trigger definitions, in order: first the inherited
    definitions that no explicit assignment overrides, in their inherited
    order, then every explicit assignment in template order.  An overridden
    trigger therefore moves behind all inherited ones. *)
Theorem merge_triggers_order (inherited assignments : dict TriggerDefinition) :
  dict_wf inherited -> dict_wf assignments ->
  merge_triggers inherited assignments
  = not_overridden inherited assignments ++ assignments.
Proof.
  intros Hwi Hwa. unfold merge_triggers.
  rewrite dict_pops_filter by exact Hwi.
  assert (Hf : filter
                 (fun kv : string * TriggerDefinition =>
                    negb (existsb (fun k => String.eqb k (fst kv))
                            (filter (fun k => dict_mem k inherited)
                                    (dict_keys assignments))))
                 inherited
               = not_overridden inherited assignments).
  { unfold not_overridden. apply filter_ext_in. intros [k v] Hin. simpl.
    f_equal.
    assert (Hmem : dict_mem k inherited = true).
    { unfold dict_mem. now rewrite (dict_wf_get _ _ _ Hwi Hin). }
    unfold dict_mem at 2.
    destruct (dict_get k assignments) as [v'|] eqn:E.
    - apply existsb_exists. exists k. split; [| apply String.eqb_refl].
      apply filter_In. split; [| exact Hmem].
      apply dict_keys_get. eauto.
    - apply not_true_is_false. intros Hex. apply existsb_exists in Hex.
      destruct Hex as (k' & Hin' & Heq). apply String.eqb_eq in Heq. subst k'.
      apply filter_In in Hin'. apply dict_get_None in E. tauto. }
  rewrite Hf. apply dict_update_fresh.
  unfold dict_keys. rewrite map_app. apply NoDup_app.
  - now apply (filter_keys_NoDup _ inherited).
  - exact Hwa.
  - intros k Hin Hin'. apply in_map_iff in Hin.
    destruct Hin as ([k0 v0] & <- & Hin). apply filter_In in Hin.
    destruct Hin as [_ Hneg]. simpl in *.
    apply dict_keys_get in Hin'. destruct Hin' as [v' Hv'].
    unfold dict_mem in Hneg. now rewrite Hv' in Hneg.
Qed.

End InheritedFacts.


Example collect_targets_inherited_example :
  PolicyDefinition.collect_targets
    (fun _ => Ok example_type) example_resolve_reference untargeted_policy
  = Ok [("WebServer", mkReference "WebServer" [["node_types"]])].
Proof. reflexivity. Qed.

(** Inherited [scale] then [heal]; the template assigns [scale] again and
    adds [backup]: [heal] stays first, [scale] moves behind it. *)
Lemma merge_triggers_order_witness :
  PolicyDefinition.merge_triggers
    [("scale", inherited_scale); ("heal", inherited_scale)]
    [("backup", explicit_scale); ("scale", explicit_scale)]
  = (not_overridden
       [("scale", inherited_scale); ("heal", inherited_scale)]
       [("backup", explicit_scale); ("scale", explicit_scale)]
     ++ [("backup", explicit_scale); ("scale", explicit_scale)])%list.
Proof.
  apply merge_triggers_order.
  - constructor; [intros [H | []]; discriminate |].
    constructor; [intros [] | constructor].
  - constructor; [intros [H | []]; discriminate |].
    constructor; [intros [] | constructor].
Defined.

Example merge_triggers_order_example :
  PolicyDefinition.merge_triggers
    [("scale", inherited_scale); ("heal", inherited_scale)]
    [("backup", explicit_scale); ("scale", explicit_scale)]
  = [("heal", inherited_scale); ("backup", explicit_scale);
     ("scale", explicit_scale)].
Proof. reflexivity. Qed.

(** ** Trigger actions *)

Section ActionsFacts.
Import Template PolicyDefinition.
Local Open Scope list_scope.
Context {Operation Entity Typ : Type}.
Context (eval : Value Typ -> string -> result pyval).

(** The result of [collect_trigger_action_from_interfaces] from the list of
    matches. *)
Lemma collect_trigger_action_from_matches (self : t)
  (nodes : dict (Node Operation)) (name : string) (action : Activity)
  (inputs : option (dict pyval)) :
  collect_trigger_action_from_interfaces eval self nodes name action inputs
  = match matching_operations name nodes with
    | [] => Raise (ParseError (no_interface_message name) (loc self))
    | m :: ms =>
        e <- extra_inputs eval inputs ;;
        Ok (Some (last ms m, e))
    end.
Proof.
  unfold collect_trigger_action_from_interfaces. rewrite nodes_loop.
  destruct (matching_operations name nodes) as [|m ms]; [reflexivity |].
  rewrite record_matches.
  destruct (extra_inputs eval inputs); reflexivity.
Qed.

Lemma matching_operations_dotted (name : string)
  (nodes : dict (Node Operation)) (m : string * string * Operation) :
  In m (matching_operations name nodes) ->
  (fst (fst m) ++ "." ++ snd (fst m))%string = name.
Proof.
  intros Hin. unfold matching_operations in Hin.
  apply in_flat_map in Hin. destruct Hin as (x & _ & Hin).
  apply in_flat_map in Hin. destruct Hin as (y & _ & Hin).
  apply interface_match_exact in Hin. tauto.
Qed.

Lemma last_In {X : Type} (l : list X) (x : X) : In (last l x) (x :: l).
Proof.
  revert x. induction l as [|y l IH]; intros x; [now left |].
  right. change (In (last (y :: l) x) (y :: l)).
  rewrite (last_cons_default l y x y).
  change (last (y :: l) y) with (last (y :: l) y). destruct l as [|z l].
  - now left.
  - specialize (IH y). simpl in IH |- *. exact IH.
Qed.

(** X6. The extended [call_operation] notation without an [inputs] key
    leaves [inputs] at [None]: the activity then cannot be resolved at all.
    With no matching operation the usual [ParseError] is raised; with one,
    [None.items()] raises [AttributeError]. *)
Theorem extended_notation_needs_inputs (self : t)
  (nodes : dict (Node Operation)) (name : string) (action : Activity) :
  collect_trigger_action_from_interfaces eval self nodes name action None
  = match matching_operations name nodes with
    | [] => Raise (ParseError (no_interface_message name) (loc self))
    | _ :: _ => Raise AttributeError
    end.
Proof.
  rewrite collect_trigger_action_from_matches.
  destruct (matching_operations name nodes); reflexivity.
Qed.

(** X7. The extra inputs attached to an action have exactly the input names
    of the activity, in order, and under each name the evaluated input,
    wrapped as an untyped Value with the flag set. *)
Theorem extra_inputs_keep_names (inputs : dict pyval)
  (extra : dict (Value Typ)) :
  dict_wf inputs ->
  extra_inputs eval (Some inputs) = Ok extra ->
  dict_keys extra = dict_keys inputs
  /\ forall k v,
      dict_get k inputs = Some v ->
      exists r, eval (mkValue None true v) k = Ok r
                /\ dict_get k extra = Some (mkValue None true r).
Proof.
  intros Hwf. unfold extra_inputs.
  destruct (map_result _ inputs) as [items|e] eqn:E; cbn [bind];
    [| discriminate].
  intros [= <-]. apply map_result_Ok in E.
  assert (Hkeys : dict_keys items = dict_keys inputs).
  { induction E as [|[k v] y xs ys Hxy _ IH]; [reflexivity |].
    destruct (eval _ k); simpl in Hxy; [| discriminate].
    injection Hxy as <-. simpl. f_equal. apply IH.
    now inversion Hwf. }
  rewrite dict_of_items_wf by (unfold dict_wf; now rewrite Hkeys).
  split; [exact Hkeys |].
  clear Hkeys Hwf. induction E as [|[k0 v0] y xs ys Hxy _ IH];
    intros k v; simpl; [discriminate |].
  destruct (eval (mkValue None true v0) k0) as [r|] eqn:Ev; simpl in Hxy;
    [| discriminate].
  injection Hxy as <-. simpl.
  destruct (String.eqb_spec k k0) as [-> | _]; [| apply IH].
  intros [= <-]. eauto.
Qed.

(** One activity that resolves gives one action, and the action's
    [<interface>.<operation>] is the name the activity asks for. *)
Lemma collect_trigger_action_Ok (self : t) (activity : Activity)
  (target_filter : option (string * Entity)) (nodes : dict (Node Operation))
  (policy_targets : dict Entity) (r : option (@Action Operation Typ)) :
  collect_trigger_action eval self activity target_filter nodes policy_targets
  = Ok r ->
  exists a, r = Some a
            /\ activity_name activity = Some (dotted_name a)
            /\ exists d rest, activity = ("call_operation", d) :: rest.
Proof.
  unfold collect_trigger_action, activity_name.
  destruct activity as [|[kind d] rest]; [discriminate |].
  destruct (String.eqb_spec kind "call_operation") as [-> | _];
    cbn [negb]; [| discriminate].
  destruct (dict_get "call_operation" (("call_operation", d) :: rest))
    as [[name | operation inputs | v]|]; cbn [bind]; try discriminate.
  - destruct name as [|c name']; [discriminate |].
    destruct (collect_trigger_target_nodes _ _ _) as [targeted|e];
      cbn [bind]; [| discriminate].
    rewrite collect_trigger_action_from_matches.
    destruct (matching_operations _ targeted) as [|m ms] eqn:Em;
      [discriminate |].
    destruct (extra_inputs eval (Some [])) as [e|]; cbn [bind];
      [| discriminate].
    intros [= <-]. eexists. split; [reflexivity |]. split; [| eauto].
    unfold dotted_name. cbn [fst snd]. f_equal. symmetry.
    apply matching_operations_dotted with (nodes := targeted).
    rewrite Em. apply last_In.
  - destruct operation as [[|c name']|]; try discriminate.
    destruct (collect_trigger_target_nodes _ _ _) as [targeted|e];
      cbn [bind]; [| discriminate].
    rewrite collect_trigger_action_from_matches.
    destruct (matching_operations _ targeted) as [|m ms] eqn:Em;
      [discriminate |].
    destruct (extra_inputs eval inputs) as [e|]; cbn [bind];
      [| discriminate].
    intros [= <-]. eexists. split; [reflexivity |]. split; [| eauto].
    unfold dotted_name. cbn [fst snd]. f_equal. symmetry.
    apply matching_operations_dotted with (nodes := targeted).
    rewrite Em. apply last_In.
Qed.

Lemma collect_trigger_actions_loop (self : t)
  (target_filter : option (string * Entity)) (nodes : dict (Node Operation))
  (policy_targets : dict Entity) (activities : list Activity) :
  forall acc actions,
    for_loop activities
      (fun activity actions =>
         collected_action <-
           collect_trigger_action eval self activity target_filter nodes
             policy_targets ;;
         Ok (Continue
               (match collected_action with
                | Some a => actions ++ [a]
                | None => actions
                end)))
      acc
    = Ok actions ->
    exists new,
      actions = acc ++ new
      /\ Forall2
           (fun activity (a : @Action Operation Typ) =>
              activity_name activity = Some (dotted_name a)
              /\ exists d rest, activity = ("call_operation", d) :: rest)
           activities new.
Proof.
  induction activities as [|activity activities IH]; intros acc actions;
    cbn [for_loop].
  - intros [= <-]. exists []. split; [now rewrite app_nil_r | constructor].
  - destruct (collect_trigger_action _ _ _ _ _ _) as [r|e] eqn:E;
      cbn [bind]; [| discriminate].
    apply collect_trigger_action_Ok in E.
    destruct E as (a & -> & Hname & Hshape).
    intros H. apply IH in H. destruct H as (new & -> & Hall).
    exists (a :: new). split; [now rewrite <- app_assoc |].
    constructor; auto.
Qed.

(** X8. When the actions of a trigger are collected, every activity of the
    definition has given exactly one action, in order; each activity is a
    [call_operation] and the action's [<interface>.<operation>] is the name
    the activity asks for. *)
Theorem collect_trigger_actions_one_per_activity (self : t)
  (definition : TriggerDefinition)
  (target_filter : option (string * Entity)) (nodes : dict (Node Operation))
  (policy_targets : dict Entity) (actions : list (@Action Operation Typ)) :
  collect_trigger_actions eval self definition target_filter nodes
    policy_targets = Ok actions ->
  Forall2
    (fun activity a =>
       activity_name activity = Some (dotted_name a)
       /\ exists d rest, activity = ("call_operation", d) :: rest)
    (match action definition with Some l => l | None => [] end)
    actions.
Proof.
  unfold collect_trigger_actions. intros H.
  apply collect_trigger_actions_loop in H.
  destruct H as (new & -> & Hall). exact Hall.
Qed.

(** X9. An activity of another kind than [call_operation] is rejected:
    when the activities before it resolve, collecting the actions fails with
    a [ParseError] at the policy's location whose message names the kind. *)
Theorem unsupported_activity_is_rejected (self : t)
  (definition : TriggerDefinition)
  (target_filter : option (string * Entity)) (nodes : dict (Node Operation))
  (policy_targets : dict Entity)
  (before after : list Activity) (kind : string) (d : call_operation_data)
  (rest : Activity) (resolved : list (@Action Operation Typ)) :
  action definition = Some (before ++ ((kind, d) :: rest) :: after) ->
  kind <> "call_operation" ->
  collect_trigger_actions eval self
    (mkTriggerDefinition (event definition) (PolicyDefinition.target_filter definition)
       (condition definition) (Some before))
    target_filter nodes policy_targets = Ok resolved ->
  collect_trigger_actions eval self definition target_filter nodes
    policy_targets
  = Raise (ParseError ("Unsupported trigger activity definitions: " ++ kind ++
                       ". Only call_operation is supported.") (loc self))
  /\ names ("Unsupported trigger activity definitions: " ++ kind ++
            ". Only call_operation is supported.") kind.
Proof.
  intros Hact Hkind Hbefore. split.
  - unfold collect_trigger_actions in *. rewrite Hact. cbn [action] in Hbefore.
    rewrite for_loop_app.
    + rewrite Hbefore. cbn [bind for_loop].
      unfold collect_trigger_action at 1.
      destruct (String.eqb_spec kind "call_operation"); [contradiction |].
      reflexivity.
    + intros y s s'.
      destruct (collect_trigger_action _ _ _ _ _ _); cbn [bind]; discriminate.
  - apply names_prefix, names_suffix, names_refl.
Qed.

End ActionsFacts.

Lemma extra_inputs_keep_names_witness :
  dict_keys [("count", mkValue (Typ := unit) None true (PInt 2));
             ("zone", mkValue None true (PStr "a"))]
  = dict_keys [("count", PInt 2); ("zone", PStr "a")]
  /\ forall k v,
      dict_get k [("count", PInt 2); ("zone", PStr "a")] = Some v ->
      exists r, eval_literal (mkValue None true v) k = Ok r
                /\ dict_get k [("count", mkValue (Typ := unit) None true (PInt 2));
                               ("zone", mkValue None true (PStr "a"))]
                   = Some (mkValue (Typ := unit) None true r).
Proof.
  apply (extra_inputs_keep_names eval_literal
           [("count", PInt 2); ("zone", PStr "a")]).
  - constructor; [intros [H | []]; discriminate |].
    constructor; [intros [] | constructor].
  - reflexivity.
Defined.

(** A trigger with two activities on the node [web]. *)
Lemma collect_trigger_actions_one_per_activity_witness :
  Forall2
    (fun activity (a : @PolicyDefinition.Action string unit) =>
       activity_name activity = Some (dotted_name a)
       /\ exists d rest, activity = ("call_operation", d) :: rest)
    [[("call_operation", PolicyDefinition.CallShort "Standard.delete")];
     [("call_operation",
       PolicyDefinition.CallExtended (Some "Standard.create")
         (Some [("count", PInt 2)]))]]
    [("Standard", "delete", "web_delete.yml", []);
     ("Standard", "create", "web_create.yml",
      [("count", mkValue None true (PInt 2))])].
Proof.
  apply (collect_trigger_actions_one_per_activity eval_literal example_policy
           (PolicyDefinition.mkTriggerDefinition None None None
              (Some
                 [[("call_operation",
                    PolicyDefinition.CallShort "Standard.delete")];
                  [("call_operation",
                    PolicyDefinition.CallExtended (Some "Standard.create")
                      (Some [("count", PInt 2)]))]]))
           (Some ("web", tt)) example_nodes []).
  reflexivity.
Defined.

(** A [delegate] activity after a [call_operation] that resolves. *)
Lemma unsupported_activity_is_rejected_witness :
  PolicyDefinition.collect_trigger_actions eval_literal example_policy
    (PolicyDefinition.mkTriggerDefinition None None None
       (Some
          [[("call_operation", PolicyDefinition.CallShort "Standard.delete")];
           [("delegate", PolicyDefinition.CallOther (PStr "workflow"))]]))
    (Some ("web", tt)) example_nodes []
  = Raise (ParseError
             ("Unsupported trigger activity definitions: " ++ "delegate" ++
              ". Only call_operation is supported.")
             (mkLoc "service.yaml" 10 3))
  /\ names ("Unsupported trigger activity definitions: " ++ "delegate" ++
            ". Only call_operation is supported.") "delegate".
Proof.
  apply (unsupported_activity_is_rejected eval_literal example_policy
           (PolicyDefinition.mkTriggerDefinition None None None
              (Some
                 [[("call_operation",
                    PolicyDefinition.CallShort "Standard.delete")];
                  [("delegate", PolicyDefinition.CallOther (PStr "workflow"))]]))
           (Some ("web", tt)) example_nodes []
           [[("call_operation", PolicyDefinition.CallShort "Standard.delete")]]
           [] "delegate" (PolicyDefinition.CallOther (PStr "workflow")) []
           [("Standard", "delete", "web_delete.yml", [])]).
  - reflexivity.
  - discriminate.
  - reflexivity.
Defined.

(** ** Building triggers *)

Section TriggersFacts.
Import Template PolicyDefinition.
Local Open Scope list_scope.
Context {Operation Entity Typ : Type}.
Context (resolve_type : Reference -> result PolicyType).
Context (resolve_reference : Reference -> result Entity).
Context (collect_definitions_triggers :
           PolicyType -> result (dict TriggerDefinition)).
Context (eval : Value Typ -> string -> result pyval).

(** X10. A trigger that is built carries the name it is stored under and the
    event and condition of its definition as they are.  Without a
    [target_filter] it has no resolved filter; with one, the filter has a
    [node] reference that resolves, its name is one of the policy's collected
    targets unless the policy has none, and the trigger's filter is what
    [resolve_event_filter] finds for that name. *)
Theorem collect_trigger_Ok (self : t) (policy_targets : dict Entity)
  (nodes : dict (Node Operation)) (name : string)
  (definition : TriggerDefinition) (trigger : @Trigger Operation Typ) :
  collect_trigger resolve_reference eval self policy_targets nodes name
    definition = Ok trigger ->
  trigger_name trigger = name
  /\ trigger_event trigger = event definition
  /\ trigger_condition trigger = condition definition
  /\ match target_filter definition with
     | None => trigger_target_filter trigger = None
     | Some filter =>
         exists target_node entity,
           node filter = Some target_node
           /\ resolve_reference target_node = Ok entity
           /\ (policy_targets = []
               \/ In (data target_node) (dict_keys policy_targets))
           /\ resolve_event_filter (Some (data target_node, entity)) nodes
              = Ok (trigger_target_filter trigger)
     end.
Proof.
  unfold collect_trigger.
  destruct (target_filter definition) as [filter|].
  - destruct (node filter) as [target_node|]; [| discriminate].
    destruct (resolve_reference target_node) as [entity|] eqn:Hr;
      cbn [bind fst]; [| discriminate].
    assert (Hcheck :
      (match policy_targets with
       | [] => Ok tt
       | _ :: _ =>
           if negb (in_keys (data target_node) policy_targets)
           then abort (not_in_targets_message (data target_node)) (loc self)
           else Ok tt
       end = Ok tt) ->
      policy_targets = []
      \/ In (data target_node) (dict_keys policy_targets)).
    { destruct policy_targets as [|pt pts]; [now left |].
      destruct (in_keys (data target_node) (pt :: pts)) eqn:Ek;
        cbn [negb]; [| discriminate].
      intros _. right. now apply in_keys_iff. }
    destruct (match policy_targets with
              | [] => Ok tt
              | _ :: _ => _
              end) as [[]|] eqn:Ec; cbn [bind]; [| discriminate].
    specialize (Hcheck eq_refl).
    destruct (collect_trigger_actions _ _ _ _ _ _); cbn [bind];
      [| discriminate].
    destruct (resolve_event_filter _ nodes) as [resolved|] eqn:Er;
      cbn [bind]; [| discriminate].
    intros [= <-]. cbn. repeat split. exists target_node, entity.
    repeat split; auto.
  - cbn [bind].
    destruct (collect_trigger_actions _ _ _ _ _ _); cbn [bind];
      [| discriminate].
    intros [= <-]. cbn. repeat split.
Qed.

(** Building a dictionary entry by entry from distinct keys. *)
Lemma for_loop_dict_build {V W : Type} (f : string -> V -> result W)
  (xs : dict V) : forall (acc r : dict W),
  NoDup (dict_keys acc ++ dict_keys xs) ->
  for_loop xs
    (fun '(k, v) acc => w <- f k v ;; Ok (Continue (dict_set k w acc)))
    acc = Ok r ->
  exists new,
    r = acc ++ new
    /\ Forall2 (fun kv kw => fst kw = fst kv /\ f (fst kv) (snd kv) = Ok (snd kw))
               xs new.
Proof.
  induction xs as [|[k v] xs IH]; intros acc r Hnd; cbn [for_loop].
  - intros [= <-]. exists []. split; [now rewrite app_nil_r | constructor].
  - destruct (f k v) as [w|e] eqn:E; cbn [bind]; [| discriminate].
    assert (Hk : ~ In k (dict_keys acc)).
    { simpl in Hnd. apply NoDup_remove_2 in Hnd. intros Hin. apply Hnd.
      apply in_or_app. now left. }
    rewrite dict_set_fresh by exact Hk.
    intros H. apply IH in H.
    + destruct H as (new & -> & Hall). exists ((k, w) :: new).
      split; [now rewrite <- app_assoc |]. constructor; auto.
    + unfold dict_keys. rewrite map_app. simpl. rewrite <- app_assoc.
      exact Hnd.
Qed.

(** X11. When the triggers of a policy are collected, the result has one
    trigger per merged definition, in the merged order and under the
    definition's name, and each is the trigger built from that definition. *)
Theorem collect_triggers_entries (self : t) (policy_targets : dict Entity)
  (nodes : dict (Node Operation)) (typ : PolicyType)
  (inherited : dict TriggerDefinition)
  (collected : dict (@Trigger Operation Typ)) :
  resolve_type (type self) = Ok typ ->
  collect_definitions_triggers typ = Ok inherited ->
  dict_wf inherited ->
  collect_triggers resolve_type resolve_reference collect_definitions_triggers
    eval self policy_targets nodes = Ok collected ->
  Forall2
    (fun kd kt =>
       fst kt = fst kd
       /\ collect_trigger resolve_reference eval self policy_targets nodes
            (fst kd) (snd kd) = Ok (snd kt))
    (merge_triggers inherited
       (match triggers self with Some d => d | None => [] end))
    collected.
Proof.
  intros Hty Hinh Hwf. unfold collect_triggers.
  rewrite Hty. cbn [bind]. rewrite Hinh. cbn [bind]. intros H.
  apply (for_loop_dict_build
           (collect_trigger resolve_reference eval self policy_targets nodes))
    in H.
  - destruct H as (new & -> & Hall). exact Hall.
  - simpl. now apply merge_triggers_wf.
Qed.

(** X12. The targets of a policy that is built are node instances of the
    document, each under its own template name. *)
Theorem get_template_targets_are_nodes
  (collect_properties : t -> result (dict (Value Typ)))
  (collect_types : t -> result (list string))
  (self : t) (name : string) (nodes : dict (Node Operation))
  (policy : @Policy Operation Typ) :
  get_template resolve_type resolve_reference collect_definitions_triggers
    eval collect_properties collect_types self name nodes = Ok policy ->
  policy_name policy = name
  /\ forall node_name n,
      dict_get node_name (PolicyDefinition.policy_targets policy) = Some n ->
      In (node_name, n) nodes.
Proof.
  unfold get_template.
  destruct (collect_targets resolve_type resolve_reference self)
    as [targets|]; cbn [bind]; [| discriminate].
  destruct (collect_properties self); cbn [bind]; [| discriminate].
  destruct (collect_types self); cbn [bind]; [| discriminate].
  rewrite resolve_targets_total.
  destruct (hits_untyped_node _ nodes); cbn [bind]; [discriminate |].
  destruct (collect_triggers _ _ _ _ _ _ _); cbn [bind]; [| discriminate].
  intros [= <-]. cbn. split; [reflexivity |].
  intros node_name n H. now apply resolve_targets_sound in H.
Qed.

End TriggersFacts.

Lemma collect_trigger_Ok_witness :
  let trigger :=
    PolicyDefinition.mkTrigger (Typ := unit) "scale" (Some (PStr "overload"))
      (Some ("web", web)) None
      [("Standard", "delete", "web_delete.yml", [])] in
  PolicyDefinition.trigger_name trigger = "scale"
  /\ PolicyDefinition.trigger_event trigger
     = PolicyDefinition.event explicit_scale
  /\ PolicyDefinition.trigger_condition trigger
     = PolicyDefinition.condition explicit_scale
  /\ match PolicyDefinition.target_filter explicit_scale with
     | None => PolicyDefinition.trigger_target_filter trigger = None
     | Some filter =>
         exists target_node entity,
           PolicyDefinition.node filter = Some target_node
           /\ example_resolve_reference target_node = Ok entity
           /\ (@nil (string * Reference) = []
               \/ In (data target_node) (dict_keys (@nil (string * Reference))))
           /\ PolicyDefinition.resolve_event_filter
                (Some (data target_node, entity)) example_nodes
              = Ok (PolicyDefinition.trigger_target_filter trigger)
     end.
Proof.
  intros trigger.
  apply (collect_trigger_Ok example_resolve_reference eval_literal
           untargeted_policy [] example_nodes "scale" explicit_scale trigger).
  reflexivity.
Defined.

Lemma collect_triggers_entries_witness :
  Forall2
    (fun kd kt =>
       fst kt = fst kd
       /\ PolicyDefinition.collect_trigger example_resolve_reference
            eval_literal untargeted_policy [] example_nodes
            (fst kd) (snd kd) = Ok (snd kt))
    (PolicyDefinition.merge_triggers []
       (match PolicyDefinition.triggers untargeted_policy with
        | Some d => d
        | None => []
        end))
    [("scale",
      PolicyDefinition.mkTrigger "scale" (Some (PStr "overload"))
        (Some ("web", web)) None
        [("Standard", "delete", "web_delete.yml", [])])].
Proof.
  apply (collect_triggers_entries example_resolve_type
           example_resolve_reference example_inherited_triggers eval_literal
           untargeted_policy [] example_nodes
           (PolicyDefinition.mkPolicyType None) []).
  - reflexivity.
  - reflexivity.
  - constructor.
  - reflexivity.
Defined.

(** ** [concat] *)

Section ConcatFacts.
Import PolicyDefinition.
Local Open Scope list_scope.
Context {Typ : Type}.
Context (eval : Value Typ -> string -> result pyval).
Context (py_str : pyval -> string).

Lemma map_result_app {A B : Type} (f : A -> result B) (xs ys : list A) :
  map_result f (xs ++ ys)
  = (a <- map_result f xs ;; b <- map_result f ys ;; Ok (a ++ b)).
Proof.
  induction xs as [|x xs IH]; simpl.
  - now destruct (map_result f ys).
  - destruct (f x); simpl; [| reflexivity]. rewrite IH.
    destruct (map_result f xs); simpl; [| reflexivity].
    now destruct (map_result f ys).
Qed.

Lemma join_empty_app (l1 l2 : list string) :
  String.concat "" (l1 ++ l2)
  = (String.concat "" l1 ++ String.concat "" l2)%string.
Proof.
  induction l1 as [|x l1 IH]; [reflexivity |].
  destruct l1 as [|y l1].
  - simpl. destruct l2; [now rewrite append_nil_r | reflexivity].
  - change (String.concat "" ((x :: y :: l1) ++ l2))
      with (x ++ "" ++ String.concat "" ((y :: l1) ++ l2))%string.
    rewrite IH.
    change (String.concat "" (x :: y :: l1))
      with (x ++ "" ++ String.concat "" (y :: l1))%string.
    simpl. now rewrite append_assoc.
Qed.

Lemma concat_from_values (params : list pyval) (values : list pyval) :
  Forall2 (fun param v => eval (mkValue None true param) "" = Ok v)
          params values ->
  concat eval py_str params = Ok (String.concat "" (map py_str values)).
Proof.
  intros H. unfold concat.
  assert (Hm : map_result
                 (fun param => v <- eval (mkValue None true param) "" ;;
                               Ok (py_str v))
                 params
               = Ok (map py_str values)).
  { induction H as [|param v params values Hv _ IH]; [reflexivity |].
    simpl. rewrite Hv. cbn [bind]. now rewrite IH. }
  now rewrite Hm.
Qed.

Lemma map_result_first_error {A B : Type} (f : A -> result B)
  (before after : list A) (x : A) (e : exn) :
  (forall q, In q before -> exists v, f q = Ok v) ->
  f x = Raise e ->
  map_result f (before ++ x :: after) = Raise e.
Proof.
  intros Hb He. induction before as [|q before IH]; simpl.
  - now rewrite He.
  - destruct (Hb q (or_introl eq_refl)) as [v ->]. cbn [bind].
    now rewrite (IH (fun q' Hq' => Hb q' (or_intror Hq'))).
Qed.

Lemma concat_first_error (before after : list pyval) (param : pyval) (e : exn) :
  (forall q, In q before -> exists v, eval (mkValue None true q) "" = Ok v) ->
  eval (mkValue None true param) "" = Raise e ->
  concat eval py_str (before ++ param :: after) = Raise e.
Proof.
  intros Hb He. unfold concat.
  rewrite (map_result_first_error _ before after param e).
  - reflexivity.
  - intros q Hq. destruct (Hb q Hq) as [v ->]. cbn [bind]. eauto.
  - now rewrite He.
Qed.

(** X13. [concat] evaluates its parameters from left to right, each as a
    Value with the empty key: when all evaluate, the result is their strings
    joined without separator; the first parameter that fails to evaluate
    gives the error raised; and [concat] of two parameter lists put together
    is the concatenation of their [concat]s. *)
Theorem concat_app (ps qs : list pyval) :
  concat eval py_str (ps ++ qs)
  = (a <- concat eval py_str ps ;;
     b <- concat eval py_str qs ;;
     Ok (a ++ b)%string)
  /\ (forall values,
         Forall2 (fun param v => eval (mkValue None true param) "" = Ok v)
                 ps values ->
         concat eval py_str ps = Ok (String.concat "" (map py_str values)))
  /\ (forall param e,
         (forall q, In q ps ->
                    exists v, eval (mkValue None true q) "" = Ok v) ->
         eval (mkValue None true param) "" = Raise e ->
         concat eval py_str (ps ++ param :: qs) = Raise e).
Proof.
  split; [| split].
  - unfold concat. rewrite map_result_app.
    destruct (map_result _ ps) as [a|]; cbn [bind]; [| reflexivity].
    destruct (map_result _ qs) as [b|]; cbn [bind]; [| reflexivity].
    now rewrite join_empty_app.
  - apply concat_from_values.
  - intros param e. apply concat_first_error.
Qed.

End ConcatFacts.

(** ** [parse] and its command-line callback *)

Section ParseNoneFacts.
Import Parse.
Context {Path Topology Ast Archive : Type}.
Context (is_zipfile is_dir : Path -> bool).
Context (create : Path -> result Archive).
Context (validate_csar : Archive -> result unit).
Context (get_entrypoint : Archive -> result (option Path)).
Context (is_dir_archive : Archive -> bool).
Context (temporary_directory : Path).
Context (unpackage_csar : Archive -> Path -> result unit).
Context (load : Path -> Path -> result Ast).
Context (get_template : Ast -> dict pyval -> result Topology).
Context (parent name : Path -> Path).

(** X14. [parse] returns without a Topology in one case only: the path is a
    zip file or a directory, the archive is created and validated, and it
    reports no entrypoint.  In every other case [parse] returns a Topology
    or raises. *)
Theorem parse_returns_None_iff (path : Path) (inputs : option (dict pyval)) :
  parse is_zipfile is_dir create validate_csar get_entrypoint is_dir_archive
    temporary_directory unpackage_csar load get_template parent name
    path inputs = Ok None
  <-> is_zipfile path || is_dir path = true
      /\ exists csar,
          create path = Ok csar
          /\ validate_csar csar = Ok tt
          /\ get_entrypoint csar = Ok None.
Proof.
  unfold parse. destruct (is_zipfile path || is_dir path).
  - rewrite parse_csar_returns_None_iff. tauto.
  - split; [| intros [H _]; discriminate].
    intros H. now apply parse_service_template_never_None in H.
Qed.

(** X15. A directory archive is loaded where it lies: [parse_csar] does not
    depend on unpackaging (nor on the temporary directory), so a failing
    [unpackage_csar] cannot make it fail. *)
Theorem parse_csar_directory_in_place
  (temporary_directory' : Path)
  (unpackage_csar' : Archive -> Path -> result unit)
  (path : Path) (inputs : option (dict pyval)) (csar : Archive) :
  create path = Ok csar ->
  is_dir_archive csar = true ->
  parse_csar create validate_csar get_entrypoint is_dir_archive
    temporary_directory unpackage_csar load get_template path inputs
  = parse_csar create validate_csar get_entrypoint is_dir_archive
      temporary_directory' unpackage_csar' load get_template path inputs
  /\ forall entrypoint,
      validate_csar csar = Ok tt ->
      get_entrypoint csar = Ok (Some entrypoint) ->
      parse_csar create validate_csar get_entrypoint is_dir_archive
        temporary_directory unpackage_csar load get_template path inputs
      = (ast <- load path entrypoint ;;
         topology <- get_template ast (inputs_or_empty inputs) ;;
         Ok (Some topology)).
Proof.
  intros Hc Hd. unfold parse_csar. rewrite Hc. cbn [bind]. split.
  - destruct (validate_csar csar); cbn [bind]; [| reflexivity].
    destruct (get_entrypoint csar) as [[entry|]|]; cbn [bind];
      [| reflexivity | reflexivity].
    now rewrite Hd.
  - intros entrypoint Hv He. rewrite Hv. cbn [bind]. rewrite He. cbn [bind].
    now rewrite Hd.
Qed.

End ParseNoneFacts.

Section CallbackFacts.
Import Cli.
Context {Path Topology InputsFile : Type}.
Context (safe_load : InputsFile -> loaded).
Context (PurePath : string -> Path).
Context (loc_str : Location -> string).
Context (parse : Path -> option (dict pyval) -> result (option Topology)).

(** X16. The exit code of [_parser_callback] is 0 exactly when the inputs
    load and [parse] returns (whatever it returns, [None] included); it is 1
    exactly when the inputs do not load or [parse] raises a [ParseError] or an
    [OperaToscaParserError]; any other exception raised by [parse] (a
    [RuntimeError], an [IndexError], ...) is not turned into an exit code: it
    escapes the callback. *)
Theorem parser_callback_exit_codes (args : Namespace InputsFile) :
  (snd (_parser_callback safe_load PurePath loc_str parse args) = Ok 0
   <-> exists inputs r,
       load_inputs safe_load args = Loaded inputs
       /\ parse (path_argument PurePath args) inputs = Ok r)
  /\ (snd (_parser_callback safe_load PurePath loc_str parse args) = Ok 1
      <-> (exists msg, load_inputs safe_load args = YAMLError msg)
          \/ exists inputs e,
              load_inputs safe_load args = Loaded inputs
              /\ parse (path_argument PurePath args) inputs = Raise e
              /\ ((exists msg loc, e = ParseError msg loc)
                  \/ exists msg, e = OperaToscaParserError msg))
  /\ (forall e,
         snd (_parser_callback safe_load PurePath loc_str parse args) = Raise e
         <-> (exists inputs,
                 load_inputs safe_load args = Loaded inputs
                 /\ parse (path_argument PurePath args) inputs = Raise e)
             /\ carries_location e = false
             /\ forall msg, e <> OperaToscaParserError msg).
Proof.
  unfold _parser_callback.
  destruct (load_inputs safe_load args) as [inputs|msg].
  - destruct (parse (path_argument PurePath args) inputs) as [r|e] eqn:Ep.
    + split; [| split].
      * split; [intros _; exists inputs, r; now split | reflexivity].
      * split; [discriminate |].
        intros [[m H] | (i & e & H & H' & _)]; [discriminate |].
        injection H as <-. congruence.
      * intros e. split; [discriminate |].
        intros [(i & H & H') _]. injection H as <-. congruence.
    + split; [| split].
      * split; [destruct e; discriminate |].
        intros (i & r & H & H'). injection H as <-. congruence.
      * split.
        -- intros H. right. exists inputs, e. split; [reflexivity |].
           split; [exact Ep |].
           destruct e; try discriminate; eauto.
        -- intros [[m H] | (i & e' & H & H' & H'')]; [discriminate |].
           injection H as <-. rewrite Ep in H'. injection H' as <-.
           destruct H'' as [(m & l & ->) | (m & ->)]; reflexivity.
      * intros e'. split.
        -- intros H.
           assert (He : e' = e) by (destruct e; simpl in H; congruence).
           subst e'. split; [eauto |].
           destruct e; simpl in H; try discriminate;
             (split; [reflexivity | intros m; discriminate]).
        -- intros ((i & H & H') & Hloc & Hno). injection H as <-.
           rewrite Ep in H'. injection H' as <-.
           destruct e; simpl in Hloc; try discriminate; try reflexivity.
           exfalso. now apply (Hno msg).
  - split; [| split].
    + split; [discriminate | intros (i & r & H & _); discriminate].
    + split; [eauto | reflexivity].
    + intros e. split; [discriminate | intros [(i & H & _) _]; discriminate].
Qed.

End CallbackFacts.

(** A directory archive with the entrypoint [service.yaml]: paths are
    strings, the archive object is its path, the AST is the loaded file name
    and the topology is the number of inputs.  Unpackaging always fails. *)
Lemma parse_csar_directory_in_place_witness :
  Parse.parse_csar
    (Topology := nat) (Ast := string)
    (fun path : string => Ok path) (fun _ => Ok tt)
    (fun _ => Ok (Some "service.yaml")) (fun _ => true)
    "/tmp/a" (fun _ _ => Raise (OperaToscaParserError "cannot unpack"))
    (fun workdir entry => Ok (workdir ++ "/" ++ entry))
    (fun _ inputs => Ok (List.length inputs))
    "csar_dir" None
  = Parse.parse_csar
      (fun path : string => Ok path) (fun _ => Ok tt)
      (fun _ => Ok (Some "service.yaml")) (fun _ => true)
      "/tmp/b" (fun _ _ => Ok tt)
      (fun workdir entry => Ok (workdir ++ "/" ++ entry))
      (fun _ inputs => Ok (List.length inputs))
      "csar_dir" None
  /\ forall entrypoint,
      Ok tt = Ok tt ->
      Ok (Some "service.yaml") = Ok (Some entrypoint) ->
      Parse.parse_csar
        (Topology := nat) (Ast := string)
        (fun path : string => Ok path) (fun _ => Ok tt)
        (fun _ => Ok (Some "service.yaml")) (fun _ => true)
        "/tmp/a" (fun _ _ => Raise (OperaToscaParserError "cannot unpack"))
        (fun workdir entry => Ok (workdir ++ "/" ++ entry))
        (fun _ inputs => Ok (List.length inputs))
        "csar_dir" None
      = (ast <- Ok ("csar_dir" ++ "/" ++ entrypoint) ;;
         topology <- Ok (List.length (Parse.inputs_or_empty None)) ;;
         Ok (Some topology)).
Proof.
  apply (parse_csar_directory_in_place
           (Topology := nat) (Ast := string)
           (fun path : string => Ok path) (fun _ => Ok tt)
           (fun _ => Ok (Some "service.yaml")) (fun _ => true)
           "/tmp/a" (fun _ _ => Raise (OperaToscaParserError "cannot unpack"))
           (fun workdir entry => Ok (workdir ++ "/" ++ entry))
           (fun _ inputs => Ok (List.length inputs))
           "/tmp/b" (fun _ _ => Ok tt) "csar_dir" None "csar_dir");
    reflexivity.
Defined.

(** ** A target filter that names no node instance *)

Section FilterWithoutNode.
Import Template PolicyDefinition.
Local Open Scope list_scope.
Context {Operation Entity Typ : Type}.
Context (eval : Value Typ -> string -> result pyval).


End FilterWithoutNode.


(** Joining strings around a parameter that does not evaluate. *)
Lemma concat_app_witness :
  PolicyDefinition.concat eval_no_functions example_str
    ([PStr "web"; PStr "-"] ++ [PStr "01"])
  = Ok "web-01"
  /\ PolicyDefinition.concat eval_no_functions example_str
       ([PStr "web"; PStr "-"]
        ++ PDict [("get_input", PStr "zone")] :: [PStr "01"])
     = Raise (RuntimeError "unknown function").
Proof.
  split.
  - rewrite (proj1 (concat_app eval_no_functions example_str
                      [PStr "web"; PStr "-"] [PStr "01"])).
    reflexivity.
  - apply (proj2 (proj2 (concat_app eval_no_functions example_str
                           [PStr "web"; PStr "-"] [PStr "01"]))).
    + intros q [<- | [<- | []]]; eexists; reflexivity.
    + reflexivity.
Defined.

(** [web_policy] targets [web]: the built policy holds that node. *)
Lemma get_template_targets_are_nodes_witness :
  let policy :=
    PolicyDefinition.mkPolicy "scaling" ["my.policies.Scale"] []
      [("web", web)] [("scale", explicit_scale_trigger)] in
  PolicyDefinition.policy_name policy = "scaling"
  /\ forall node_name n,
      dict_get node_name (PolicyDefinition.policy_targets policy) = Some n ->
      In (node_name, n) example_nodes.
Proof.
  intros policy.
  apply (get_template_targets_are_nodes example_resolve_type
           example_resolve_reference example_inherited_triggers eval_literal
           (fun _ => Ok []) (fun _ => Ok ["my.policies.Scale"])
           web_policy "scaling" example_nodes policy).
  reflexivity.
Defined.

(** ** Explicit assignments in the collected targets and triggers *)

Section ExplicitFacts.
Import Template PolicyDefinition.
Local Open Scope list_scope.
Context {Operation Entity Typ : Type}.
Context (resolve_type : Reference -> result PolicyType).
Context (resolve_reference : Reference -> result Entity).
Context (collect_definitions_triggers :
           PolicyType -> result (dict TriggerDefinition)).
Context (eval : Value Typ -> string -> result pyval).





End ExplicitFacts.


(** ** [resolve_targets]: what it returns and when it raises *)

Section ResolveTargetsOutcome.
Import Template PolicyDefinition.
Local Open Scope list_scope.
Context {Operation : Type}.
Implicit Types (nodes : dict (Node Operation)) (n : Node Operation).

Lemma have_types_no_hit (target_names : list string) nodes :
  have_types nodes -> hits_untyped_node target_names nodes = false.
Proof.
  intros Hty. apply not_true_is_false. intros H.
  apply hits_untyped_node_iff in H.
  destruct H as (target & name & n & _ & Hin & Hnil & _).
  exact (Hty name n Hin Hnil).
Qed.

Lemma resolved_writes_key (target_names : list string) nodes name :
  In name (dict_keys (dict_of_items (resolved_writes target_names nodes)))
  <-> exists n target,
      In (name, n) nodes /\ In target target_names
      /\ target_matches target (name, n) = true.
Proof.
  split.
  - intros H. apply dict_keys_get in H. destruct H as [n Hn].
    unfold dict_of_items in Hn. rewrite dict_get_update in Hn. simpl in Hn.
    destruct (dict_get name (rev _)) as [v|] eqn:E; [| discriminate].
    injection Hn as ->. apply dict_get_In, in_rev, In_resolved_writes in E.
    destruct E as (Hin & target & Ht & Hm). eauto.
  - intros (n & target & Hin & Ht & Hm).
    assert (Hw : In (name, n) (resolved_writes target_names nodes))
      by (apply In_resolved_writes; eauto).
    apply dict_keys_get. unfold dict_of_items. rewrite dict_get_update.
    destruct (dict_get name (rev _)) as [v|] eqn:E; [eauto |].
    exfalso. apply dict_get_None in E. apply E.
    apply -> in_rev in Hw. apply (in_map fst) in Hw. exact Hw.
Qed.

(** C9 (as the code has it). [resolve_targets] raises in one case only, and
    then [IndexError]: a target name is tested against a node instance that
    has no type and another name.  On node instances that all have a type it
    never raises.  Whenever it returns, the keys of the result are exactly
    the template names of the node instances matched by some target (by name
    or first type), each holding a node instance of the document, and a
    target name that matches no node instance is not a key: it is left out
    without any report. *)
Theorem resolve_targets_omits_unmatched {T : Type} (targets : dict T) nodes :
  (have_types nodes ->
   exists resolved, resolve_targets targets nodes = Ok resolved)
  /\ (forall e,
         resolve_targets targets nodes = Raise e ->
         e = IndexError
         /\ exists target name n,
             In target (dict_keys targets) /\ In (name, n) nodes
             /\ types n = [] /\ name <> target)
  /\ ((exists target name n,
          In target (dict_keys targets) /\ In (name, n) nodes
          /\ types n = [] /\ name <> target) ->
      resolve_targets targets nodes = Raise IndexError)
  /\ (forall resolved,
         resolve_targets targets nodes = Ok resolved ->
         (forall name,
             In name (dict_keys resolved)
             <-> exists n target,
                 In (name, n) nodes /\ In target (dict_keys targets)
                 /\ target_matches target (name, n) = true)
         /\ (forall name n,
                dict_get name resolved = Some n ->
                In (name, n) nodes
                /\ exists target,
                    In target (dict_keys targets)
                    /\ target_matches target (name, n) = true)
         /\ (forall target,
                In target (dict_keys targets) ->
                (forall name n, In (name, n) nodes ->
                                target_matches target (name, n) = false) ->
                ~ In target (dict_keys resolved))).
Proof.
  rewrite resolve_targets_total.
  split; [| split; [| split]].
  - intros Hty. rewrite have_types_no_hit by exact Hty. eauto.
  - intros e.
    destruct (hits_untyped_node (dict_keys targets) nodes) eqn:Eh;
      [| discriminate].
    intros [= <-]. split; [reflexivity | now apply hits_untyped_node_iff].
  - intros H. apply hits_untyped_node_iff in H. now rewrite H.
  - intros resolved.
    destruct (hits_untyped_node (dict_keys targets) nodes); [discriminate |].
    intros [= <-]. split; [| split].
    + intros name. apply resolved_writes_key.
    + intros name n. apply resolve_targets_sound.
    + intros target Ht Hnone Hkey.
      apply resolved_writes_key in Hkey.
      destruct Hkey as (n & target' & Hin & _ & _).
      specialize (Hnone target n Hin).
      unfold target_matches in Hnone. simpl in Hnone.
      now rewrite String.eqb_refl in Hnone.
Qed.

End ResolveTargetsOutcome.

(** The example nodes all have a type: nothing is raised, although the
    target [cache] matches no node. *)
Lemma resolve_targets_omits_unmatched_witness :
  exists resolved,
    PolicyDefinition.resolve_targets
      [("cache", tt); ("db", tt)] example_nodes = Ok resolved.
Proof.
  apply (proj1 (resolve_targets_omits_unmatched
                  [("cache", tt); ("db", tt)] example_nodes)).
  exact example_nodes_have_types.
Defined.

Example resolve_targets_omits_unmatched_example :
  PolicyDefinition.resolve_targets
    [("cache", tt); ("db", tt)] example_nodes
  = Ok [("db", db)].
Proof. reflexivity. Qed.

(** A node map with a node instance that has no type: testing the target
    [web] against it raises [IndexError]. *)
Lemma resolve_targets_raises_on_untyped_node :
  PolicyDefinition.resolve_targets [("web", tt)] [("orphan", orphan)]
  = Raise IndexError.
Proof. reflexivity. Qed.

(** ** The outcomes of [parse] *)

Section ParseOutcomes.
Import Parse.
Context {Path Topology Ast Archive : Type}.
Context (is_zipfile is_dir : Path -> bool).
Context (create : Path -> result Archive).
Context (validate_csar : Archive -> result unit).
Context (get_entrypoint : Archive -> result (option Path)).
Context (is_dir_archive : Archive -> bool).
Context (temporary_directory : Path).
Context (unpackage_csar : Archive -> Path -> result unit).
Context (load : Path -> Path -> result Ast).
Context (get_template : Ast -> dict pyval -> result Topology).
Context (parent name : Path -> Path).


End ParseOutcomes.


Example parse_with_entrypoint_example :
  parse_with_entrypoint "service.yaml" None = Ok (Some 0).
Proof. reflexivity. Qed.
